(** * shell.ts: platform helpers, execution environment, docker-env detection

    A shallow embedding of [src/shell.ts] of vscode-kubernetes-tools.

    Conventions of the embedding.
    - A JavaScript string is a sequence of UTF-16 code units; the model keeps
      the code units below 256, one [ascii] each, which covers every character
      the source names in a literal, a character class or a regular expression.
    - A value that may be [undefined] or [null] is an [option]; truthiness is
      written out ([truthy]).
    - An object used as a string map is an association list in insertion
      order ([JsObject]), because [Object.keys] is observable in
      [pathVariableName].
    - Objects live in a store and are named by references ([Ref]); the
      process-wide environment [process.env] is one of them.
    - The outside world (the file system searched by [shelljs.which], the
      helpers run by [shelljs.exec], the editor's configuration, Node's
      [path.dirname]) is a [Host]: the functions are total over every host. *)

From Stdlib Require Import String Ascii List ZArith Bool Arith Lia.
Import ListNotations.

Local Open Scope list_scope.
Local Open Scope string_scope.

(* ================================================================= *)
(** ** JavaScript values and strings *)

(** The characters the source writes with an escape. *)
Definition dquote : ascii := "034"%char.
Definition backslash : ascii := "092"%char.
Definition slash : ascii := "/"%char.
Definition LF : ascii := "010"%char.
Definition CR : ascii := "013"%char.

(** [ToBoolean] on strings: only the empty string is falsy. *)
Definition truthy_string (s : string) : bool := negb (s =? "").

(** [ToBoolean] on a string that may be [undefined] or [null]. *)
Definition truthy (v : option string) : bool :=
  match v with
  | Some s => truthy_string s
  | None => false
  end.

(** [undefined] coerced to a string, as [+] and property keys do. *)
Definition to_js_string (v : option string) : string :=
  match v with
  | Some s => s
  | None => "undefined"
  end.

(** [s.replace(/c/g, by)] for a pattern that is one literal character and a
    replacement text without [$]: every occurrence is replaced, left to
    right. *)
Fixpoint replace_global (c : ascii) (by_ : string) (s : string) : string :=
  match s with
  | EmptyString => EmptyString
  | String x s' =>
      (if Ascii.eqb x c then by_ else String x EmptyString)
        ++ replace_global c by_ s'
  end.

(** [String.prototype.toLowerCase] on code units below 256: the letters
    [A]-[Z] and the Latin-1 capitals 192-222 (215, the multiplication sign,
    apart) move up by 32. *)
Definition lower_char (c : ascii) : ascii :=
  let n := nat_of_ascii c in
  if (((65 <=? n) && (n <=? 90))
      || ((192 <=? n) && (n <=? 222) && negb (n =? 215)))%nat
  then ascii_of_nat (n + 32)
  else c.

Fixpoint toLowerCase (s : string) : string :=
  match s with
  | EmptyString => EmptyString
  | String c s' => String (lower_char c) (toLowerCase s')
  end.

(** Completion of a call: a normal return or a thrown error. *)
Inductive JsError : Type :=
  | TypeError.

Inductive Completion (A : Type) : Type :=
  | Returned (a : A)
  | Threw (e : JsError).

Arguments Returned {A} a.
Arguments Threw {A} e.

(* ================================================================= *)
(** ** Platform detection (lines 8-13, 41, 51-66) *)

Inductive Platform : Type :=
  | Windows
  | MacOS
  | Linux
  | Unsupported.

Definition WINDOWS : string := "win32".

(** [process.platform] is an argument: the runtime supplies it. *)
Definition isWindows (process_platform : string) : bool :=
  process_platform =? WINDOWS.

Definition isUnix (process_platform : string) : bool :=
  negb (isWindows process_platform).

Definition platform (process_platform : string) : Platform :=
  if process_platform =? "win32" then Windows
  else if process_platform =? "darwin" then MacOS
  else if process_platform =? "linux" then Linux
  else Unsupported.

(* ================================================================= *)
(** ** Paths and URIs (lines 73-87) *)

Definition combinePath (process_platform : string)
    (basePath relativePath : string) : string :=
  let separator := "/" in
  let '(relativePath, separator) :=
    if isWindows process_platform
    then (replace_global slash (String backslash "") relativePath,
          String backslash "")
    else (relativePath, separator) in
  basePath ++ separator ++ relativePath.

(** [vscode.Uri.parse] belongs to the editor, not to this repository: the
    URI type and the parser are arguments. *)
Definition fileUri {Uri : Type} (Uri_parse : string -> Uri)
    (process_platform : string) (filePath : string) : Uri :=
  if isWindows process_platform
  then Uri_parse ("file:///" ++ replace_global backslash "/" filePath)
  else Uri_parse ("file://" ++ filePath).

Definition pathEntrySeparator (process_platform : string) : string :=
  if isWindows process_platform then ";" else ":".

(* ================================================================= *)
(** ** Regular expressions of the source *)

(** Character classes, on code units below 256. *)
Definition in_range (lo hi : nat) (c : ascii) : bool :=
  ((lo <=? nat_of_ascii c) && (nat_of_ascii c <=? hi))%nat.

(** [\s]: TAB, LF, VT, FF, CR, space and the no-break space. *)
Definition is_space (c : ascii) : bool :=
  in_range 9 13 c || (nat_of_ascii c =? 32)%nat || (nat_of_ascii c =? 160)%nat.

(** [[a-zA-Z0-9_]] *)
Definition is_word (c : ascii) : bool :=
  in_range 97 122 c || in_range 65 90 c || in_range 48 57 c
  || Ascii.eqb c "_"%char.

(** [[\r\n]] *)
Definition is_newline (c : ascii) : bool :=
  Ascii.eqb c CR || Ascii.eqb c LF.

(** [.] (no [s] flag): any character but a line terminator. *)
Definition is_dot (c : ascii) : bool :=
  negb (is_newline c).

(** The patterns of the source are sequences of literal characters, starred
    classes and starred classes in a capture group, anchored at both ends. *)
Inductive RegexItem : Type :=
  | Lit (c : ascii)
  | Star (cls : ascii -> bool)
  | CaptureStar (cls : ascii -> bool).

Definition Regex : Type := list RegexItem.

Fixpoint lits (s : string) : Regex :=
  match s with
  | EmptyString => []
  | String c s' => Lit c :: lits s'
  end.

(** A greedy [X*] followed by the continuation [k], as a backtracking matcher
    runs it: take one more character when the class allows it, and give the
    character back when the rest then fails. [taken] is what the star has
    consumed so far. *)
Fixpoint greedy_star {R : Type} (cls : ascii -> bool)
    (k : string -> string -> option R) (taken : string) (s : string)
    : option R :=
  match s with
  | String x s' =>
      if cls x then
        match greedy_star cls k (taken ++ String x EmptyString) s' with
        | Some m => Some m
        | None => k taken s
        end
      else k taken s
  | EmptyString => k taken s
  end.

(** [^ items $] against [s]; the result lists the captures, first group
    first. [caps] holds the captures closed so far, last first. *)
Fixpoint regex_match (r : Regex) (caps : list string) (s : string)
    : option (list string) :=
  match r with
  | [] =>
      match s with
      | EmptyString => Some (rev caps)
      | String _ _ => None
      end
  | Lit c :: r' =>
      match s with
      | String x s' => if Ascii.eqb x c then regex_match r' caps s' else None
      | EmptyString => None
      end
  | Star cls :: r' =>
      greedy_star cls (fun _ rest => regex_match r' caps rest) EmptyString s
  | CaptureStar cls :: r' =>
      greedy_star cls (fun taken rest => regex_match r' (taken :: caps) rest)
        EmptyString s
  end.

(** [regexp.exec(s)] for an anchored pattern without the [g] flag: [null], or
    the array of the whole match followed by the captures. *)
Definition regexp_exec (r : Regex) (s : string) : option (list string) :=
  match regex_match r [] s with
  | Some caps => Some (s :: caps)
  | None => None
  end.

(** Line 177, the pattern of the [RegExp]: [^export], then [\s*], then a
    first group around [[a-zA-Z0-9_]*], then [=], then a second group around
    [.*], then [$]. *)
Definition docker_env_regexp : Regex :=
  (lits "export"
     ++ [Star is_space; CaptureStar is_word; Lit "="%char; CaptureStar is_dot]
  )%list.

(** [s.split(/[sep]+/)]: the pieces between maximal runs of separator
    characters, the empty piece before a leading run and after a trailing
    run included. [in_sep] says that the previous character was a separator,
    [piece] is the piece being read. *)
Fixpoint split_runs (sep : ascii -> bool) (in_sep : bool) (piece : string)
    (s : string) : list string :=
  match s with
  | EmptyString => [piece]
  | String c s' =>
      if sep c then
        if in_sep then split_runs sep true EmptyString s'
        else piece :: split_runs sep true EmptyString s'
      else split_runs sep false (piece ++ String c EmptyString) s'
  end.

(** Line 174: [stdout.split(/[\r\n]+/)] *)
Definition split_lines (stdout : string) : list string :=
  split_runs is_newline false EmptyString stdout.

(* ================================================================= *)
(** ** Objects and the store *)

(** An object with string-valued properties, in insertion order. *)
Definition JsObject : Type := list (string * string).

Fixpoint obj_get (o : JsObject) (k : string) : option string :=
  match o with
  | [] => None
  | (k', v) :: o' => if k' =? k then Some v else obj_get o' k
  end.

(** [o[k] = v]: an existing property keeps its place, a new one goes last. *)
Fixpoint obj_set (o : JsObject) (k v : string) : JsObject :=
  match o with
  | [] => [(k, v)]
  | (k', v') :: o' =>
      if k' =? k then (k', v) :: o' else (k', v') :: obj_set o' k v
  end.

(** [Object.keys(o)] *)
Definition obj_keys (o : JsObject) : list string := map fst o.

(** [target[k] = v] as [Object.assign] does it, by an ordinary assignment:
    like [obj_set], but for the name [__proto__] on a target that has no
    property of its own under that name: there the assignment reaches the
    setter of [Object.prototype], which ignores a string, and no property is
    made. *)
Definition obj_put (target : JsObject) (k v : string) : JsObject :=
  if (k =? "__proto__")
     && negb (existsb (String.eqb "__proto__") (obj_keys target))
  then target
  else obj_set target k v.

(** [Object.assign(target, source)] *)
Definition obj_assign (target source : JsObject) : JsObject :=
  fold_left (fun t kv => obj_put t (fst kv) (snd kv)) source target.

(** No property name occurs twice: what every JavaScript object satisfies. *)
Definition wf_object (o : JsObject) : Prop := NoDup (obj_keys o).

(** References: [process.env], or the [n]-th object allocated. *)
Inductive Ref : Type :=
  | ProcessEnv
  | Obj (n : nat).

(** What a run can observe and change: the process-wide environment, the
    other objects, the lines written by [console.log] and the commands handed
    to [shelljs.exec], oldest first. *)
Record State : Type := mkState {
  process_env : JsObject;
  heap : list JsObject;
  console : list string;
  executed : list string
}.

(** The object behind a reference; a reference that names no object stands
    for [undefined], which has no property to copy. *)
Definition deref (st : State) (r : Ref) : JsObject :=
  match r with
  | ProcessEnv => process_env st
  | Obj n => nth n (heap st) []
  end.

Fixpoint update_nth {A : Type} (n : nat) (f : A -> A) (l : list A) : list A :=
  match l, n with
  | [], _ => []
  | x :: l', O => f x :: l'
  | x :: l', S n' => x :: update_nth n' f l'
  end.

(** [r[k] = v]. [process.env] is Node's own object: a write under the empty
    name is dropped. Its names are kept as on POSIX, told apart by case; on
    Windows they are not, so what is proved of a write to [process.env] is
    stated off Windows. *)
Definition assign_prop (st : State) (r : Ref) (k v : string) : State :=
  match r with
  | ProcessEnv =>
      if k =? "" then st
      else
        mkState (obj_set (process_env st) k v) (heap st) (console st)
          (executed st)
  | Obj n =>
      mkState (process_env st) (update_nth n (fun o => obj_set o k v) (heap st))
        (console st) (executed st)
  end.

(** A new object, named by the next free reference. *)
Definition alloc (st : State) (o : JsObject) : Ref * State :=
  (Obj (length (heap st)),
   mkState (process_env st) (heap st ++ [o]) (console st) (executed st)).

(** [console.log(msg)] *)
Definition console_log (msg : string) (st : State) : State :=
  mkState (process_env st) (heap st) (console st ++ [msg]) (executed st).

(** The record of a command handed to [shelljs.exec]. *)
Definition record_exec (cmd : string) (st : State) : State :=
  mkState (process_env st) (heap st) (console st) (executed st ++ [cmd]).

(* ================================================================= *)
(** ** The host *)

(** Lines 43-47. *)
Record ShellResult : Type := mkShellResult {
  code : Z;
  stdout : string;
  stderr : string
}.

(** What the code asks of its surroundings. [World] is the state of
    everything outside the process; looking up an executable and running a
    command see the process environment and the world, and leave a world. *)
Record Host (World : Type) : Type := mkHost {
  process_platform : string;
  configuration : string -> option string;
  path_dirname : string -> string;
  shelljs_which : string -> JsObject -> World -> option string * World;
  shelljs_exec : string -> JsObject -> World -> ShellResult * World
}.

Arguments process_platform {World} h.
Arguments configuration {World} h key.
Arguments path_dirname {World} h p.
Arguments shelljs_which {World} h cmd env w.
Arguments shelljs_exec {World} h cmd env w.

(** How a call ends: its completion, and the state and world it leaves. *)
Record Outcome (World A : Type) : Type := Done {
  completion : Completion A;
  state_after : State;
  world_after : World
}.

Arguments Done {World A} completion state_after world_after.
Arguments completion {World A} o.
Arguments state_after {World A} o.
Arguments world_after {World A} o.

(* ================================================================= *)
(** ** The program *)

Section Program.

Context {World : Type} (h : Host World).

(** Lines 178-188, the callback of [lines.map]. [match[1]] and [match[2]] are
    read from the array [exec] returned; a missing [match[2]] would make
    [.replace] throw. *)
Definition applyLine (line : string) (st : State) : Completion unit * State :=
  match regexp_exec docker_env_regexp line with
  | Some match_ =>
      if (2 <=? List.length match_)%nat then
        let varName := to_js_string (nth_error match_ 1) in
        match nth_error match_ 2 with
        | Some group2 =>
            let varValue := replace_global dquote "" group2 in
            let st := console_log (varName ++ "=" ++ varValue) st in
            (Returned tt, assign_prop st ProcessEnv varName varValue)
        | None => (Threw TypeError, st)
        end
      else (Returned tt, console_log ("No match for line :" ++ line) st)
  | None => (Returned tt, console_log ("No match for line :" ++ line) st)
  end.

(** [lines.map(callback)]: the callback runs on each line in order; a throw
    ends the traversal. *)
Fixpoint mapLines (lines : list string) (st : State)
    : Completion unit * State :=
  match lines with
  | [] => (Returned tt, st)
  | line :: rest =>
      match applyLine line st with
      | (Returned _, st') => mapLines rest st'
      | (Threw e, st') => (Threw e, st')
      end
  end.

(** Lines 172-195: what is done with [shellResult] once the helpers have been
    tried. [None] is [null], whose [.code] cannot be read. *)
Definition applyShellResult (shellResult : option ShellResult)
    (st : State) (w : World) : Outcome World bool :=
  match shellResult with
  | None => Done (Threw TypeError) st w
  | Some r =>
      if (code r =? 0)%Z && negb (truthy_string (stderr r)) then
        let lines := split_lines (stdout r) in
        let lines := filter (fun l => (0 <? String.length l)%nat) lines in
        match mapLines lines st with
        | (Returned _, st') => Done (Returned false) st' w
        | (Threw e, st') => Done (Threw e) st' w
        end
      else
        Done (Returned false)
          (console_log ("Error Configuring Docker :" ++ stderr r) st) w
  end.

(** Lines 149-170: the helpers are tried. [inl] is the [return] of line 168;
    [inr] is what reaches line 172: the value of [shellResult], the state and
    the world. *)
Definition tryHelpers (st : State) (w : World)
    : Outcome World bool + (option ShellResult * State * World) :=
  (* lines 149-160 *)
  let '(shellResult, tryMinishift, st, w) :=
    let '(found, w) := shelljs_which h "minikube" (process_env st) w in
    if truthy found then
      let '(r, w) :=
        shelljs_exec h "minikube docker-env" (process_env st) w in
      (Some r,
       negb (code r =? 0)%Z || truthy_string (stderr r),
       record_exec "minikube docker-env" st, w)
    else (None, true, st, w) in
  (* line 162 *)
  let shellResult : option ShellResult := None in
  (* lines 164-170 *)
  if tryMinishift : bool then
    let '(found, w) := shelljs_which h "minishift" (process_env st) w in
    if truthy found then
      let '(r, w) :=
        shelljs_exec h "minishift docker-env" (process_env st) w in
      let shellResult := Some r in
      inr (shellResult, record_exec "minishift docker-env" st, w)
    else inl (Done (Returned false) st w)
  else inr (shellResult, st, w).

(** Lines 146-196. The parameter [env] is kept as the source has it. *)
Definition autoDockerEnvConfig (env : Ref) (st : State) (w : World)
    : Outcome World bool :=
  if negb (truthy (obj_get (process_env st) "DOCKER_HOST"))
     && negb (truthy (obj_get (process_env st) "DOCKER_CERT_PATH"))
  then
    match tryHelpers st w with
    | inl returned => returned
    | inr (shellResult, st, w) => applyShellResult shellResult st w
    end
  else Done (Returned false) st w.

(** Lines 198-207. *)
Definition pathVariableName (env : JsObject) : string :=
  if isWindows (process_platform h) then
    match find (fun v => toLowerCase v =? "path") (obj_keys env) with
    | Some v => v
    | None => "PATH"
    end
  else "PATH".

(** Line 123. *)
Definition tools : list string := ["kubectl"; "helm"; "draft"].

(** Lines 124-134, the body of the loop for one [tool]. *)
Definition toolStep (env : Ref) (pathVariable : string) (tool : string)
    (st : State) (w : World) : Outcome World unit :=
  let toolPath := configuration h ("vs-kubernetes." ++ tool ++ "-path") in
  if truthy toolPath then
    let toolDirectory := path_dirname h (to_js_string toolPath) in
    let currentPath := obj_get (deref st env) pathVariable in
    let r := autoDockerEnvConfig env st w in
    match completion r with
    | Returned _ =>
        Done (Returned tt)
          (assign_prop (state_after r) env pathVariable
             ((if truthy currentPath
               then to_js_string currentPath
                      ++ pathEntrySeparator (process_platform h)
               else "") ++ toolDirectory))
          (world_after r)
    | Threw e => Done (Threw e) (state_after r) (world_after r)
    end
  else Done (Returned tt) st w.

(** The [for ... of] loop of lines 123-135 over the tools still to visit. *)
Fixpoint forTools (env : Ref) (pathVariable : string) (ts : list string)
    (st : State) (w : World) : Outcome World unit :=
  match ts with
  | [] => Done (Returned tt) st w
  | tool :: rest =>
      let r := toolStep env pathVariable tool st w in
      match completion r with
      | Returned _ =>
          forTools env pathVariable rest (state_after r) (world_after r)
      | Threw e => r
      end
  end.

(** Lines 120-143. The result is the reference of the new object. *)
Definition shellEnvironment (baseEnvironment : Ref) (st : State) (w : World)
    : Outcome World Ref :=
  let '(env, st) := alloc st (obj_assign [] (deref st baseEnvironment)) in
  let pathVariable := pathVariableName (deref st env) in
  let r := forTools env pathVariable tools st w in
  match completion r with
  | Returned _ =>
      let st := state_after r in
      let kubeconfig := configuration h "vs-kubernetes.kubeconfig" in
      let st :=
        if truthy kubeconfig
        then assign_prop st env "KUBECONFIG" (to_js_string kubeconfig)
        else st in
      Done (Returned env) st (world_after r)
  | Threw e => Done (Threw e) (state_after r) (world_after r)
  end.

End Program.

Arguments applyLine line st : simpl never.

(* ================================================================= *)
(** ** The callers (lines 68-71, 89-101) *)

(** Line 95-99: the options handed to [shelljs.exec]. [cwd] is
    [vscode.workspace.rootPath], which may be [undefined]. *)
Record ExecOpts : Type := mkExecOpts {
  cwd : option string;
  env : Ref;
  async : bool
}.

Section Callers.

Context {World : Type} (h : Host World).

(** Lines 68-71. *)
Definition home (st : State) : option string :=
  let homeVar :=
    if isWindows (process_platform h) then "USERPROFILE" else "HOME" in
  obj_get (process_env st) homeVar.

(** Lines 89-101. [rootPath] is [vscode.workspace.rootPath]. On Windows the
    object literal of line 92 holds what [home()] returns; when that is
    [undefined] the new object would hold a property whose value is
    [undefined], which a [JsObject] (string values) cannot hold: that one
    case is left out of the embedding, and [execOpts] is [None] there. *)
Definition execOpts (rootPath : option string) (st : State) (w : World)
    : option (Outcome World ExecOpts) :=
  let env := ProcessEnv in
  let prepared : option (Ref * State) :=
    if isWindows (process_platform h) then
      match home st with
      | Some homeDir =>
          Some (alloc st
                  (obj_assign (obj_assign [] (deref st env))
                     [("HOME", homeDir)]))
      | None => None
      end
    else Some (env, st) in
  match prepared with
  | Some (env, st) =>
      let r := shellEnvironment h env st w in
      Some
        match completion r with
        | Returned env =>
            Done (Returned (mkExecOpts rootPath env true))
              (state_after r) (world_after r)
        | Threw e => Done (Threw e) (state_after r) (world_after r)
        end
  | None => None
  end.

End Callers.

(* ================================================================= *)
(** ** Concrete hosts for the examples *)

(** A stand-in for Node's [path.dirname] on the POSIX paths of the examples:
    the path up to its last slash, ["/"] for a file of the root and ["."]
    for a bare name. *)
Fixpoint strip_last_component (p : string) : option string :=
  match p with
  | EmptyString => None
  | String c p' =>
      match strip_last_component p' with
      | Some d => Some (String c d)
      | None => if Ascii.eqb c slash then Some EmptyString else None
      end
  end.

Definition example_dirname (p : string) : string :=
  match strip_last_component p with
  | Some EmptyString => "/"
  | Some d => d
  | None => "."
  end.

(** A host whose world never changes: [helpers] lists the helper programs
    found on PATH, each with the result of its [docker-env] subcommand;
    [config] holds the settings of the [vs-kubernetes] section. *)
Definition example_host (plat : string) (config : JsObject)
    (helpers : list (string * ShellResult)) : Host unit :=
  mkHost unit plat
    (fun key => obj_get config key)
    example_dirname
    (fun cmd _ w =>
       (if existsb (fun e => fst e =? cmd) helpers
        then Some ("/usr/local/bin/" ++ cmd) else None, w))
    (fun cmd _ w =>
       (match find (fun e => (fst e ++ " docker-env") =? cmd) helpers with
        | Some e => snd e
        | None => mkShellResult 127 "" "command not found"
        end, w)).

(** The output of the spec's fake helper: one [export] line for
    [DOCKER_HOST], its value in double quotes, and a line feed. *)
Definition docker_host_export : string :=
  "export DOCKER_HOST=" ++ String dquote "tcp://1.2.3.4:2376"
    ++ String dquote (String LF "").

Definition helper_success : ShellResult :=
  mkShellResult 0 docker_host_export "".


(** A helper that fails: exit code 1 and a message on standard error. *)
Definition helper_failure : ShellResult :=
  mkShellResult 1 "" "minikube is not running".


(** A Windows process environment: PATH is spelled [Path]. *)
Definition windows_env : JsObject :=
  [("Path", "C:\Windows"); ("USERPROFILE", "C:\Users\me"); ("HOME", "H:\old")].

Definition windows_tool_settings : JsObject :=
  [("vs-kubernetes.kubectl-path", "/opt/k/kubectl");
   ("vs-kubernetes.kubeconfig", "C:\kube\config")].

Definition empty_state : State := mkState [] [] [] [].

(** Settings that configure kubectl and helm, and not draft. *)
Definition tool_settings : JsObject :=
  [("vs-kubernetes.kubectl-path", "/opt/k/kubectl");
   ("vs-kubernetes.helm-path", "/opt/h/helm")].

(** A caller's environment object, with docker already configured in the
    process environment. *)
Definition state_with_caller_env : State :=
  mkState [("DOCKER_HOST", "tcp://9.9.9.9:2376")] [[("PATH", "/usr/bin")]]
    [] [].

Definition state_with_env (env : JsObject) : State := mkState env [] [] [].

(* ================================================================= *)
(** ** The notions the properties are stated with *)

(** A string rewritten character by character. *)
Fixpoint map_chars (f : ascii -> ascii) (s : string) : string :=
  match s with
  | EmptyString => EmptyString
  | String c s' => String (f c) (map_chars f s')
  end.

(** Every [from] becomes [to]; every other character stays. *)
Definition rewrite_char (from to : ascii) (c : ascii) : ascii :=
  if Ascii.eqb c from then to else c.

(** The characters of a string that satisfy [keep], in order. *)
Fixpoint filter_chars (keep : ascii -> bool) (s : string) : string :=
  match s with
  | EmptyString => EmptyString
  | String c s' =>
      if keep c then String c (filter_chars keep s') else filter_chars keep s'
  end.

Definition without_dquotes (s : string) : string :=
  filter_chars (fun c => negb (Ascii.eqb c dquote)) s.

(** Every character of the string is in the class. *)
Fixpoint all_chars (cls : ascii -> bool) (s : string) : bool :=
  match s with
  | EmptyString => true
  | String c s' => cls c && all_chars cls s'
  end.

(** A line of the form [export NAME=VALUE] as the pattern of line 177 reads
    it: the word [export], any run of white space (none included), a run of
    word characters (none included), an equals sign, and the rest of the
    line. *)
Definition export_line (line name value : string) : Prop :=
  exists ws,
    all_chars is_space ws = true /\
    all_chars is_word name = true /\
    line = "export" ++ ws ++ name ++ "=" ++ value.

(** An [export] line that names a variable: its NAME is not empty. *)
Definition export_assignment (line name value : string) : Prop :=
  name <> "" /\ export_line line name value.


(** The environment [e'] is [e] after the lines have been gone through in
    order: a line of the form [pattern] sets NAME to VALUE without its double
    quotes, any other line changes nothing. *)
Inductive applied (pattern : string -> string -> string -> Prop)
    : list string -> JsObject -> JsObject -> Prop :=
  | applied_nil : forall e, applied pattern [] e e
  | applied_set : forall line rest name value e e',
      pattern line name value ->
      applied pattern rest (obj_set e name (without_dquotes value)) e' ->
      applied pattern (line :: rest) e e'
  | applied_skip : forall line rest e e',
      (forall name value, ~ pattern line name value) ->
      applied pattern rest e e' ->
      applied pattern (line :: rest) e e'.

(** Lines 174-176: the non-empty lines of a helper's output. *)
Definition nonempty_lines (out : string) : list string :=
  filter (fun l => (0 <? String.length l)%nat) (split_lines out).

(** A text laid out in lines: each line with the run of line terminators
    that ends it. *)
Fixpoint lines_text (items : list (string * string)) : string :=
  match items with
  | [] => ""
  | (line, run) :: rest => line ++ run ++ lines_text rest
  end.

(** The lines are not empty and hold no line terminator, the runs hold
    nothing else, and only the last line may lack its run. *)
Fixpoint laid_out (items : list (string * string)) : Prop :=
  match items with
  | [] => True
  | (line, run) :: rest =>
      line <> "" /\ all_chars is_dot line = true
      /\ all_chars is_newline run = true
      /\ (rest <> [] -> run <> "")
      /\ laid_out rest
  end.

(** The directories of the configured tools among [ts], in the order of
    [ts]. *)
Definition configured_dirs {World : Type} (h : Host World)
    (ts : list string) : list string :=
  flat_map
    (fun tool =>
       let toolPath := configuration h ("vs-kubernetes." ++ tool ++ "-path") in
       if truthy toolPath then [path_dirname h (to_js_string toolPath)]
       else [])
    ts.

(** The entries of a PATH value that is set and not empty. *)
Definition path_entries (current : option string) : list string :=
  if truthy current then [to_js_string current] else [].

(** PATH after the directories have been appended, in order, behind what it
    held; with no directory it stays as it was, unset included. *)
Definition path_appended (sep : string) (current : option string)
    (dirs : list string) : option string :=
  match dirs with
  | [] => current
  | _ :: _ => Some (String.concat sep (path_entries current ++ dirs))
  end.

(** PATH after each directory in turn has been put in front of what it held
    so far: the last directory comes first. *)
Definition path_prepended (sep : string) (current : option string)
    (dirs : list string) : option string :=
  match dirs with
  | [] => current
  | _ :: _ => Some (String.concat sep (rev dirs ++ path_entries current))
  end.

(* ================================================================= *)
(** ** Strings *)

Lemma replace_global_char (c d : ascii) (s : string) :
  replace_global c (String d "") s = map_chars (rewrite_char c d) s.
Proof.
  induction s as [|x s IH]; simpl; [reflexivity|].
  unfold rewrite_char. rewrite IH.
  destruct (Ascii.eqb x c); reflexivity.
Qed.

Lemma replace_global_delete (c : ascii) (s : string) :
  replace_global c "" s = filter_chars (fun x => negb (Ascii.eqb x c)) s.
Proof.
  induction s as [|x s IH]; simpl; [reflexivity|].
  rewrite IH. destruct (Ascii.eqb x c); reflexivity.
Qed.

Lemma append_assoc (a b c : string) : (a ++ b) ++ c = a ++ (b ++ c).
Proof. induction a; simpl; congruence. Qed.

Lemma append_empty_r (a : string) : a ++ "" = a.
Proof. induction a; simpl; congruence. Qed.

Lemma all_chars_app (cls : ascii -> bool) (a b : string) :
  all_chars cls (a ++ b) = all_chars cls a && all_chars cls b.
Proof.
  induction a as [|x a IH]; simpl; [reflexivity|].
  rewrite IH. apply andb_assoc.
Qed.

Lemma truthy_string_nonempty (s : string) :
  truthy_string s = true <-> s <> "".
Proof.
  unfold truthy_string. destruct (String.eqb_spec s ""); simpl; split;
    congruence.
Qed.

(* ================================================================= *)
(** ** Platform detection *)

(** C7. For every OS identifier [platform] returns one of the four values of
    the enumeration: [win32] gives [Windows], [darwin] gives [MacOS], [linux]
    gives [Linux], and every other identifier gives [Unsupported]. *)
Theorem platform_total (id : string) :
  platform "win32" = Windows /\
  platform "darwin" = MacOS /\
  platform "linux" = Linux /\
  (id <> "win32" -> id <> "darwin" -> id <> "linux" ->
   platform id = Unsupported) /\
  (platform id = Windows \/ platform id = MacOS \/ platform id = Linux
   \/ platform id = Unsupported).
Proof.
  repeat split; try reflexivity.
  - intros Hw Hd Hl. unfold platform.
    destruct (String.eqb_spec id "win32"); [contradiction|].
    destruct (String.eqb_spec id "darwin"); [contradiction|].
    destruct (String.eqb_spec id "linux"); [contradiction|].
    reflexivity.
  - destruct (platform id); auto.
Qed.

Lemma platform_total_witness :
  platform "freebsd" = Unsupported.
Proof.
  apply (platform_total "freebsd"); discriminate.
Defined.

(* ================================================================= *)
(** ** Paths and URIs *)

(** C8. On Windows [combinePath] joins the base, a backslash and the relative
    path with each forward slash rewritten to a backslash; elsewhere it joins
    the base, a forward slash and the relative path as it is. *)
Theorem combinePath_by_platform (pp base rel : string) :
  (isWindows pp = true ->
   combinePath pp base rel
   = base ++ String backslash "" ++ map_chars (rewrite_char slash backslash) rel
   /\ combinePath pp "/a" "b/c" = "/a\b\c") /\
  (isUnix pp = true ->
   combinePath pp base rel = base ++ "/" ++ rel
   /\ combinePath pp "/a" "b/c" = "/a/b/c").
Proof.
  unfold isUnix, combinePath. split; intros Hp.
  - rewrite Hp, replace_global_char. split; reflexivity.
  - apply negb_true_iff in Hp. rewrite Hp. split; reflexivity.
Qed.

Lemma combinePath_by_platform_witness :
  combinePath "win32" "/a" "b/c" = "/a\b\c" /\
  combinePath "linux" "/a" "b/c" = "/a/b/c".
Proof.
  split.
  - apply (proj1 (combinePath_by_platform "win32" "/a" "b/c")). reflexivity.
  - apply (proj2 (combinePath_by_platform "linux" "/a" "b/c")). reflexivity.
Defined.

(** C9. On Windows [fileUri] parses [file:///] followed by the path with each
    backslash rewritten to a forward slash; elsewhere it parses [file://]
    followed by the path as it is. *)
Theorem fileUri_by_platform {Uri : Type} (Uri_parse : string -> Uri)
    (pp filePath : string) :
  (isWindows pp = true ->
   fileUri Uri_parse pp filePath
   = Uri_parse ("file:///" ++ map_chars (rewrite_char backslash slash) filePath)
   /\ fileUri Uri_parse pp "C:\a\b" = Uri_parse "file:///C:/a/b") /\
  (isWindows pp = false ->
   fileUri Uri_parse pp filePath = Uri_parse ("file://" ++ filePath)
   /\ fileUri Uri_parse pp "/a/b" = Uri_parse "file:///a/b").
Proof.
  unfold fileUri. split; intros Hp; rewrite Hp.
  - change "/" with (String slash ""). rewrite replace_global_char.
    split; reflexivity.
  - split; reflexivity.
Qed.

Lemma fileUri_by_platform_witness :
  fileUri (fun s => s) "win32" "C:\a\b" = "file:///C:/a/b" /\
  fileUri (fun s => s) "darwin" "/a/b" = "file:///a/b".
Proof.
  split.
  - apply (proj1 (fileUri_by_platform (fun s => s) "win32" "C:\a\b")).
    reflexivity.
  - apply (proj2 (fileUri_by_platform (fun s => s) "darwin" "/a/b")).
    reflexivity.
Defined.

(* ================================================================= *)
(** ** The pattern of line 177 *)

Lemma greedy_star_sound {R : Type} (cls : ascii -> bool)
    (k : string -> string -> option R) :
  forall s taken m,
    greedy_star cls k taken s = Some m ->
    exists pre post,
      s = pre ++ post /\ all_chars cls pre = true
      /\ k (taken ++ pre) post = Some m.
Proof.
  induction s as [|x s IH]; intros taken m H; simpl in H.
  - exists "", "". rewrite (append_empty_r taken). auto.
  - destruct (cls x) eqn:Hx.
    + destruct (greedy_star cls k (taken ++ String x "") s) as [m0|] eqn:Hs.
      * injection H as <-.
        destruct (IH _ _ Hs) as (pre & post & -> & Hpre & Hk).
        exists (String x pre), post. simpl. rewrite Hx, Hpre.
        rewrite append_assoc in Hk. auto.
      * exists "", (String x s). rewrite (append_empty_r taken). auto.
    + exists "", (String x s). rewrite (append_empty_r taken). auto.
Qed.

(** A star that is stopped by the next character, with a continuation that
    succeeds there, takes exactly its run. *)
Lemma greedy_star_complete {R : Type} (cls : ascii -> bool)
    (k : string -> string -> option R) :
  forall pre taken post m,
    all_chars cls pre = true ->
    (forall c post', post = String c post' -> cls c = false) ->
    k (taken ++ pre) post = Some m ->
    greedy_star cls k taken (pre ++ post) = Some m.
Proof.
  induction pre as [|x pre IH]; intros taken post m Hpre Hstop Hk.
  - rewrite append_empty_r in Hk. simpl.
    destruct post as [|c post']; simpl; [assumption|].
    rewrite (Hstop c post' eq_refl). assumption.
  - simpl in Hpre. apply andb_true_iff in Hpre as [Hx Hpre].
    simpl. rewrite Hx.
    rewrite (IH (taken ++ String x "") post m Hpre Hstop); [reflexivity|].
    rewrite append_assoc. exact Hk.
Qed.

Lemma regex_match_lit (c : ascii) (r : Regex) (caps : list string)
    (s : string) (m : list string) :
  regex_match (Lit c :: r) caps s = Some m ->
  exists s', s = String c s' /\ regex_match r caps s' = Some m.
Proof.
  simpl. destruct s as [|x s']; [discriminate|].
  destruct (Ascii.eqb_spec x c) as [->|]; [|discriminate].
  intros H. exists s'. auto.
Qed.

Lemma word_not_space (c : ascii) : is_word c = true -> is_space c = false.
Proof.
  destruct c as [[] [] [] [] [] [] [] []]; vm_compute; congruence.
Qed.

Lemma docker_env_regexp_sound (line : string) (caps : list string) :
  regex_match docker_env_regexp [] line = Some caps ->
  exists name value,
    caps = [name; value] /\ export_line line name value
    /\ all_chars is_dot value = true.
Proof.
  unfold docker_env_regexp. cbn [lits app]. intros H.
  do 6 (apply regex_match_lit in H; destruct H as (? & -> & H)).
  cbn [regex_match] in H.
  apply greedy_star_sound in H. destruct H as (ws & s1 & -> & Hws & H).
  apply greedy_star_sound in H. destruct H as (name & s2 & -> & Hname & H).
  destruct s2 as [|c s3]; [discriminate|].
  destruct (Ascii.eqb_spec c "="%char) as [->|]; [|discriminate].
  apply greedy_star_sound in H. destruct H as (value & s4 & -> & Hvalue & H).
  destruct s4; [|discriminate].
  injection H as <-. simpl. rewrite append_empty_r.
  exists name, value. split; [reflexivity|]. split; [|assumption].
  exists ws. auto.
Qed.

Lemma docker_env_regexp_complete (line name value : string) :
  export_line line name value ->
  all_chars is_dot value = true ->
  regex_match docker_env_regexp [] line = Some [name; value].
Proof.
  intros (ws & Hws & Hname & ->) Hvalue.
  unfold docker_env_regexp. cbn [lits app].
  cbn [regex_match append Ascii.eqb Bool.eqb].
  apply greedy_star_complete; [assumption| |].
  - intros c post' E. destruct name as [|n name'].
    + injection E as <- _. reflexivity.
    + injection E as <- _. simpl in Hname.
      apply andb_true_iff in Hname as [Hn _]. now apply word_not_space.
  - cbn [regex_match append].
    apply greedy_star_complete; [assumption| |].
    + intros c post' E. injection E as <- _. reflexivity.
    + cbn [regex_match append Ascii.eqb Bool.eqb].
      rewrite <- (append_empty_r value) at 1.
      apply greedy_star_complete; [assumption|discriminate|].
      reflexivity.
Qed.

(** The second group takes the rest of the line, so it is in the class of
    [.] whenever the line is. *)
Lemma export_line_value_dot (line name value : string) :
  all_chars is_dot line = true ->
  export_line line name value ->
  all_chars is_dot value = true.
Proof.
  intros Hline (ws & _ & _ & ->).
  repeat (rewrite all_chars_app in Hline;
          apply andb_true_iff in Hline as [_ Hline]).
  exact Hline.
Qed.

(** [exec] on a line without line terminator: a match is the line and the
    NAME and VALUE of its [export] form, [null] means it has no such form. *)
Lemma regexp_exec_export (line : string) :
  all_chars is_dot line = true ->
  match regexp_exec docker_env_regexp line with
  | Some m =>
      exists name value, m = [line; name; value] /\ export_line line name value
  | None => forall name value, ~ export_line line name value
  end.
Proof.
  intros Hline. unfold regexp_exec.
  destruct (regex_match docker_env_regexp [] line) as [caps|] eqn:E.
  - apply docker_env_regexp_sound in E.
    destruct E as (name & value & -> & Hex & _). eauto.
  - intros name value Hex.
    rewrite (docker_env_regexp_complete line name value) in E;
      [discriminate|assumption|].
    eapply export_line_value_dot; eassumption.
Qed.

(** A line has at most one reading as an [export] form. *)
Lemma export_line_unique (line name value name' value' : string) :
  all_chars is_dot line = true ->
  export_line line name value ->
  export_line line name' value' ->
  name = name' /\ value = value'.
Proof.
  intros Hline H1 H2.
  pose proof (docker_env_regexp_complete _ _ _ H1
                (export_line_value_dot _ _ _ Hline H1)) as E1.
  pose proof (docker_env_regexp_complete _ _ _ H2
                (export_line_value_dot _ _ _ Hline H2)) as E2.
  rewrite E1 in E2. injection E2 as -> ->. auto.
Qed.

(** What [split] yields holds no separator. *)
Lemma split_runs_no_sep (sep : ascii -> bool) :
  forall s in_sep piece,
    all_chars (fun c => negb (sep c)) piece = true ->
    Forall (fun l => all_chars (fun c => negb (sep c)) l = true)
      (split_runs sep in_sep piece s).
Proof.
  induction s as [|c s IH]; intros in_sep piece Hp; simpl.
  - constructor; [assumption|constructor].
  - destruct (sep c) eqn:Hc.
    + destruct in_sep; [|constructor; [assumption|]]; now apply IH.
    + apply IH. rewrite all_chars_app, Hp. simpl. now rewrite Hc.
Qed.

Lemma split_runs_line (sep : ascii -> bool) (line : string) :
  forall piece rest,
    all_chars (fun c => negb (sep c)) line = true ->
    split_runs sep false piece (line ++ rest)
    = split_runs sep false (piece ++ line) rest.
Proof.
  induction line as [|c line IH]; intros piece rest Hline; simpl.
  - now rewrite append_empty_r.
  - simpl in Hline. apply andb_true_iff in Hline as [Hc Hline].
    apply negb_true_iff in Hc. rewrite Hc, IH by assumption.
    now rewrite append_assoc.
Qed.

(** After a separator, a line that is not empty starts a new piece. *)
Lemma split_runs_line_after_sep (sep : ascii -> bool) (line rest : string) :
  line <> "" ->
  all_chars (fun c => negb (sep c)) line = true ->
  split_runs sep true "" (line ++ rest) = split_runs sep false line rest.
Proof.
  destruct line as [|c line]; [congruence|]. intros _ Hline.
  pose proof (split_runs_line sep (String c line) "" rest Hline) as H.
  simpl in H |- *. simpl in Hline.
  apply andb_true_iff in Hline as [Hc _]. apply negb_true_iff in Hc.
  rewrite Hc in H |- *. exact H.
Qed.

Lemma split_runs_run_after_sep (sep : ascii -> bool) (run rest : string) :
  all_chars sep run = true ->
  split_runs sep true "" (run ++ rest) = split_runs sep true "" rest.
Proof.
  induction run as [|c run IH]; simpl; [reflexivity|]. intros Hrun.
  apply andb_true_iff in Hrun as [Hc Hrun]. rewrite Hc. now apply IH.
Qed.

Lemma split_runs_run (sep : ascii -> bool) (run rest piece : string) :
  run <> "" ->
  all_chars sep run = true ->
  split_runs sep false piece (run ++ rest)
  = piece :: split_runs sep true "" rest.
Proof.
  destruct run as [|c run]; [congruence|]. intros _ Hrun. simpl in Hrun.
  apply andb_true_iff in Hrun as [Hc Hrun]. simpl. rewrite Hc.
  f_equal. now apply split_runs_run_after_sep.
Qed.

Lemma nonempty_kept (line : string) :
  line <> "" -> (0 <? String.length line)%nat = true.
Proof. destruct line; [congruence|reflexivity]. Qed.

(** The lines of a laid-out text, read after a separator. *)
Lemma split_runs_laid_out (items : list (string * string)) :
  laid_out items ->
  filter (fun l => (0 <? String.length l)%nat)
    (split_runs is_newline true "" (lines_text items))
  = map fst items.
Proof.
  induction items as [|[line run] rest IH]; [reflexivity|].
  intros (Hne & Hline & Hrun & Hlast & Hrest).
  cbn [lines_text map fst].
  rewrite (split_runs_line_after_sep is_newline line _ Hne Hline).
  destruct run as [|c run].
  - destruct rest as [|item rest]; [|now destruct Hlast].
    cbn [lines_text append]. cbn [split_runs filter].
    now rewrite (nonempty_kept line Hne).
  - rewrite (split_runs_run is_newline (String c run) _ line); try easy.
    cbn [filter]. rewrite (nonempty_kept line Hne). f_equal. now apply IH.
Qed.

(** The non-empty lines of a text that starts with a run of line terminators
    and goes on laid out in lines are those lines. *)
Lemma nonempty_lines_laid_out (lead : string)
    (items : list (string * string)) :
  all_chars is_newline lead = true ->
  laid_out items ->
  nonempty_lines (lead ++ lines_text items) = map fst items.
Proof.
  intros Hlead Hitems. unfold nonempty_lines, split_lines.
  destruct lead as [|c lead].
  - cbn [append]. destruct items as [|[line run] rest]; [reflexivity|].
    rewrite <- (split_runs_laid_out _ Hitems). f_equal.
    destruct Hitems as (Hne & Hline & _). cbn [lines_text].
    rewrite (split_runs_line_after_sep is_newline line _ Hne Hline).
    now rewrite split_runs_line.
  - rewrite (split_runs_run is_newline (String c lead) _ "");
      try easy.
    cbn [filter String.length Nat.ltb Nat.leb]. now apply split_runs_laid_out.
Qed.

(** Every text has such a layout. *)
Lemma laid_out_exists (out : string) :
  exists lead items,
    all_chars is_newline lead = true /\ laid_out items
    /\ out = lead ++ lines_text items.
Proof.
  induction out as [|c out (lead & items & Hlead & Hitems & ->)].
  - exists "", []. simpl. auto.
  - destruct (is_newline c) eqn:Hc.
    + exists (String c lead), items. simpl. rewrite Hc. auto.
    + assert (Hdot : is_dot c = true) by (unfold is_dot; now rewrite Hc).
      destruct lead as [|d lead].
      * destruct items as [|[line run] rest].
        -- exists "", [(String c "", "")]. simpl. rewrite Hdot.
           repeat split; congruence.
        -- exists "", ((String c line, run) :: rest).
           destruct Hitems as (Hne & Hline & Hrest). simpl.
           rewrite Hdot, Hline. repeat split; try easy.
      * exists "", ((String c "", String d lead) :: items). simpl.
        simpl in Hlead. rewrite Hdot, Hlead. repeat split; try easy.
Qed.

Lemma nonempty_lines_dot (out : string) :
  Forall (fun l => all_chars is_dot l = true) (nonempty_lines out).
Proof.
  unfold nonempty_lines. apply Forall_forall. intros l Hl.
  apply filter_In in Hl as [Hl _].
  pose proof (split_runs_no_sep is_newline out false "" eq_refl) as H.
  rewrite Forall_forall in H. exact (H l Hl).
Qed.

(* ================================================================= *)
(** ** Applying the output of a helper (lines 172-193) *)

(** One line: the callback returns, touches only [process.env] and the
    console, and sets a variable exactly when the line has the [export]
    form with a NAME that is not empty. *)
Lemma applyLine_spec (line : string) (st : State) :
  all_chars is_dot line = true ->
  exists st',
    applyLine line st = (Returned tt, st')
    /\ heap st' = heap st /\ executed st' = executed st
    /\ ((exists name value,
           export_assignment line name value
           /\ process_env st'
              = obj_set (process_env st) name (without_dquotes value))
        \/ ((forall name value, ~ export_assignment line name value)
            /\ process_env st' = process_env st)).
Proof.
  intros Hline. unfold applyLine.
  pose proof (regexp_exec_export line Hline) as Hexec.
  destruct (regexp_exec docker_env_regexp line) as [m|].
  - destruct Hexec as (name & value & -> & Hex).
    cbn [List.length Nat.leb nth_error to_js_string assign_prop].
    destruct (String.eqb_spec name "") as [->|Hname].
    + eexists. split; [reflexivity|]. cbn. repeat split. right.
      split; [|reflexivity]. intros name value' [Hne Hex'].
      destruct (export_line_unique _ _ _ _ _ Hline Hex Hex') as [E _].
      congruence.
    + eexists. split; [reflexivity|]. cbn. repeat split.
      left. exists name, value. split; [split; assumption|].
      rewrite replace_global_delete. reflexivity.
  - eexists. split; [reflexivity|]. cbn. repeat split. right.
    split; [|reflexivity]. intros name value [_ Hex]. exact (Hexec _ _ Hex).
Qed.

Lemma mapLines_applied (lines : list string) :
  Forall (fun l => all_chars is_dot l = true) lines ->
  forall st,
  exists st',
    mapLines lines st = (Returned tt, st')
    /\ heap st' = heap st /\ executed st' = executed st
    /\ applied export_assignment lines (process_env st) (process_env st').
Proof.
  induction 1 as [|line rest Hline _ IH]; intros st; simpl.
  - exists st. repeat split. constructor.
  - destruct (applyLine_spec line st Hline) as (st1 & -> & Hh & He & Hcase).
    destruct (IH st1) as (st' & -> & Hh' & He' & Happ).
    exists st'. split; [reflexivity|].
    split; [congruence|]. split; [congruence|].
    destruct Hcase as [(name & value & Hex & Henv)|[Hno Henv]].
    + eapply applied_set; [eassumption|]. rewrite <- Henv. assumption.
    + apply applied_skip; [assumption|]. rewrite <- Henv. assumption.
Qed.

(** On lines without line terminator, going through the lines has one
    result only. *)
Lemma applied_export_functional (lines : list string) :
  Forall (fun l => all_chars is_dot l = true) lines ->
  forall e e1 e2,
    applied export_line lines e e1 ->
    applied export_line lines e e2 ->
    e1 = e2.
Proof.
  induction 1 as [|line rest Hline _ IH]; intros e e1 e2 H1 H2.
  - inversion H1; inversion H2; congruence.
  - inversion H1 as [|l1 r1 n1 v1 ? ? Hp1 Hr1|l1 r1 ? ? Hn1 Hr1]; subst;
      inversion H2 as [|l2 r2 n2 v2 ? ? Hp2 Hr2|l2 r2 ? ? Hn2 Hr2]; subst.
    + destruct (export_line_unique _ _ _ _ _ Hline Hp1 Hp2) as [-> ->].
      eapply IH; eassumption.
    + exfalso. eapply Hn2; eassumption.
    + exfalso. eapply Hn1; eassumption.
    + eapply IH; eassumption.
Qed.

(** Lines 172-193 on a result with exit code 0 and empty standard error:
    the non-empty lines of the output are gone through in order, and the
    block ends in the [return false] of line 195. *)
Lemma applyShellResult_applied {World : Type} (r : ShellResult)
    (st : State) (w : World) :
  code r = 0%Z ->
  stderr r = "" ->
  let out := applyShellResult (Some r) st w in
  completion out = Returned false
  /\ applied export_assignment (nonempty_lines (stdout r))
       (process_env st) (process_env (state_after out))
  /\ heap (state_after out) = heap st
  /\ executed (state_after out) = executed st
  /\ world_after out = w.
Proof.
  intros Hcode Herr. unfold applyShellResult.
  rewrite Hcode, Herr. cbn [Z.eqb truthy_string String.eqb negb andb].
  fold (nonempty_lines (stdout r)).
  destruct (mapLines_applied _ (nonempty_lines_dot (stdout r)) st)
    as (st' & -> & Hh & He & Happ).
  cbn. auto.
Qed.

(* ================================================================= *)
(** ** [autoDockerEnvConfig] (lines 146-196) *)

Section AutoDockerEnvConfig.

Context {World : Type} (h : Host World).

Lemma applyShellResult_returns_false (shellResult : option ShellResult)
    (st : State) (w : World) (b : bool) :
  completion (applyShellResult shellResult st w) = Returned b -> b = false.
Proof.
  unfold applyShellResult. destruct shellResult as [r|]; [|discriminate].
  destruct (_ && _).
  - destruct (mapLines _ st) as [[u|e] st']; cbn; congruence.
  - cbn. congruence.
Qed.

(** Nothing of lines 172-193 touches an object other than [process.env]. *)
Lemma mapLines_heap (lines : list string) :
  forall st, heap (snd (mapLines lines st)) = heap st.
Proof.
  induction lines as [|line rest IH]; intros st; simpl; [reflexivity|].
  assert (Hline : heap (snd (applyLine line st)) = heap st).
  { unfold applyLine. destruct (regexp_exec _ line) as [m|]; [|reflexivity].
    destruct (2 <=? List.length m)%nat; [|reflexivity].
    destruct (nth_error m 2); [|reflexivity].
    unfold assign_prop. destruct (_ =? _)%string; reflexivity. }
  destruct (applyLine line st) as [[u|e] st1]; simpl in *.
  - now rewrite IH.
  - assumption.
Qed.

Lemma applyShellResult_heap (shellResult : option ShellResult)
    (st : State) (w : World) :
  heap (state_after (applyShellResult shellResult st w)) = heap st.
Proof.
  unfold applyShellResult. destruct shellResult as [r|]; [|reflexivity].
  destruct (_ && _); [|reflexivity].
  pose proof (mapLines_heap
                (filter (fun l => (0 <? String.length l)%nat)
                   (split_lines (stdout r))) st) as H.
  destruct (mapLines _ st) as [[u|e] st']; exact H.
Qed.

(** Lines 148 and 195: with [DOCKER_HOST] or [DOCKER_CERT_PATH] holding a
    non-empty value the call is over at once. *)
Lemma autoDockerEnvConfig_configured (env : Ref) (st : State) (w : World) :
  truthy (obj_get (process_env st) "DOCKER_HOST") = true
  \/ truthy (obj_get (process_env st) "DOCKER_CERT_PATH") = true ->
  autoDockerEnvConfig h env st w = Done (Returned false) st w.
Proof.
  unfold autoDockerEnvConfig. intros [-> | ->]; cbn [negb andb].
  - reflexivity.
  - rewrite andb_false_r. reflexivity.
Qed.

(** Lines 153-172 when [minikube] is found and its [docker-env] succeeds:
    the result is dropped at line 162 and line 172 reads [.code] of
    [null]. *)
Lemma autoDockerEnvConfig_minikube_success (env : Ref) (st : State)
    (w w1 w2 : World) (found : option string) (r : ShellResult) :
  truthy (obj_get (process_env st) "DOCKER_HOST") = false ->
  truthy (obj_get (process_env st) "DOCKER_CERT_PATH") = false ->
  shelljs_which h "minikube" (process_env st) w = (found, w1) ->
  truthy found = true ->
  shelljs_exec h "minikube docker-env" (process_env st) w1 = (r, w2) ->
  code r = 0%Z ->
  stderr r = "" ->
  autoDockerEnvConfig h env st w
  = Done (Threw TypeError) (record_exec "minikube docker-env" st) w2.
Proof.
  intros Hh Hc Hwhich Hfound Hexec Hcode Herr.
  unfold autoDockerEnvConfig, tryHelpers.
  rewrite Hh, Hc, Hwhich, Hfound, Hexec, Hcode, Herr. reflexivity.
Qed.

(** Lines 164-166 when [minishift] is the helper that is run: line 172 sees
    its result. *)
Lemma autoDockerEnvConfig_minishift (env : Ref) (st : State)
    (w w1 w2 w3 : World) (found found' : option string) (r : ShellResult) :
  truthy (obj_get (process_env st) "DOCKER_HOST") = false ->
  truthy (obj_get (process_env st) "DOCKER_CERT_PATH") = false ->
  shelljs_which h "minikube" (process_env st) w = (found, w1) ->
  truthy found = false ->
  shelljs_which h "minishift" (process_env st) w1 = (found', w2) ->
  truthy found' = true ->
  shelljs_exec h "minishift docker-env" (process_env st) w2 = (r, w3) ->
  autoDockerEnvConfig h env st w
  = applyShellResult (Some r) (record_exec "minishift docker-env" st) w3.
Proof.
  intros Hh Hc Hwhich Hfound Hwhich' Hfound' Hexec.
  unfold autoDockerEnvConfig, tryHelpers.
  rewrite Hh, Hc, Hwhich, Hfound. cbn [negb andb].
  rewrite Hwhich', Hfound', Hexec. reflexivity.
Qed.

(** Trying the helpers writes to no object: it only notes the commands. *)
Lemma tryHelpers_frame (st st1 : State) (w w1 : World)
    (shellResult : option ShellResult) :
  tryHelpers h st w = inr (shellResult, st1, w1) ->
  process_env st1 = process_env st /\ heap st1 = heap st
  /\ console st1 = console st.
Proof.
  unfold tryHelpers.
  destruct (shelljs_which h "minikube" _ w) as [found w2].
  destruct (truthy found).
  - destruct (shelljs_exec h "minikube docker-env" _ w2) as [r w3].
    destruct (_ || _).
    + destruct (shelljs_which h "minishift" _ w3) as [found' w4].
      destruct (truthy found'); [|discriminate].
      destruct (shelljs_exec h "minishift docker-env" _ w4) as [r' w5].
      intros E. injection E as _ <- _. cbn. auto.
    + intros E. injection E as _ <- _. cbn. auto.
  - destruct (shelljs_which h "minishift" _ w2) as [found' w4].
    destruct (truthy found'); [|discriminate].
    destruct (shelljs_exec h "minishift docker-env" _ w4) as [r' w5].
    intros E. injection E as _ <- _. cbn. auto.
Qed.


(** C3. Whenever [autoDockerEnvConfig] returns, it returns [false]: every
    [return] of the function gives [false], the one after a helper's output
    has been applied included. *)
Theorem autoDockerEnvConfig_returns_false (env : Ref) (st : State)
    (w : World) (b : bool) :
  completion (autoDockerEnvConfig h env st w) = Returned b -> b = false.
Proof.
  unfold autoDockerEnvConfig, tryHelpers.
  destruct (_ && _); [|cbn; congruence].
  destruct (shelljs_which h "minikube" _ w) as [found w1].
  destruct (truthy found).
  - destruct (shelljs_exec h "minikube docker-env" _ w1) as [r w2].
    destruct (_ || _).
    + destruct (shelljs_which h "minishift" _ w2) as [found' w3].
      destruct (truthy found'); [|cbn; congruence].
      destruct (shelljs_exec h "minishift docker-env" _ w3) as [r' w4].
      apply applyShellResult_returns_false.
    + apply applyShellResult_returns_false.
  - destruct (shelljs_which h "minishift" _ w1) as [found' w3].
    destruct (truthy found'); [|cbn; congruence].
    destruct (shelljs_exec h "minishift docker-env" _ w3) as [r' w4].
    apply applyShellResult_returns_false.
Qed.

(** C4, as amended. With [DOCKER_HOST] or [DOCKER_CERT_PATH] set to a
    non-empty value, the call returns [false], runs no helper and leaves the
    process environment, every other object, the console and the world as
    they were. *)
Theorem autoDockerEnvConfig_keeps_explicit_configuration (env : Ref)
    (st : State) (w : World) (v : string) :
  v <> "" ->
  obj_get (process_env st) "DOCKER_HOST" = Some v
  \/ obj_get (process_env st) "DOCKER_CERT_PATH" = Some v ->
  let out := autoDockerEnvConfig h env st w in
  completion out = Returned false
  /\ state_after out = st
  /\ executed (state_after out) = executed st
  /\ process_env (state_after out) = process_env st
  /\ world_after out = w.
Proof.
  intros Hv Hset. cbv zeta.
  rewrite autoDockerEnvConfig_configured; [cbn; auto|].
  apply truthy_string_nonempty in Hv.
  destruct Hset as [-> | ->]; cbn; auto.
Qed.

(** C6. With neither [minikube] nor [minishift] found on PATH the call
    returns [false]: it does not throw, and it changes nothing. *)
Theorem autoDockerEnvConfig_no_helper (env : Ref) (st : State) (w : World) :
  truthy (fst (shelljs_which h "minikube" (process_env st) w)) = false ->
  truthy (fst (shelljs_which h "minishift" (process_env st)
                 (snd (shelljs_which h "minikube" (process_env st) w))))
  = false ->
  completion (autoDockerEnvConfig h env st w) = Returned false
  /\ state_after (autoDockerEnvConfig h env st w) = st.
Proof.
  unfold autoDockerEnvConfig, tryHelpers. intros H1 H2.
  destruct (_ && _); [|cbn; auto].
  destruct (shelljs_which h "minikube" _ w) as [found w1].
  cbn [fst snd] in H1, H2. rewrite H1.
  destruct (shelljs_which h "minishift" _ w1) as [found' w2].
  cbn [fst] in H2. rewrite H2. cbn. auto.
Qed.

(** The parameter [env] is never read. *)
Lemma autoDockerEnvConfig_ignores_env (env env' : Ref) (st : State)
    (w : World) :
  autoDockerEnvConfig h env st w = autoDockerEnvConfig h env' st w.
Proof. reflexivity. Qed.

(** Only [process.env] is written: the other objects stay as they were. *)
Lemma autoDockerEnvConfig_heap (env : Ref) (st : State) (w : World) :
  heap (state_after (autoDockerEnvConfig h env st w)) = heap st.
Proof.
  unfold autoDockerEnvConfig, tryHelpers.
  destruct (_ && _); [|reflexivity].
  destruct (shelljs_which h "minikube" _ w) as [found w1].
  destruct (truthy found).
  - destruct (shelljs_exec h "minikube docker-env" _ w1) as [r w2].
    destruct (_ || _).
    + destruct (shelljs_which h "minishift" _ w2) as [found' w3].
      destruct (truthy found'); [|reflexivity].
      destruct (shelljs_exec h "minishift docker-env" _ w3) as [r' w4].
      now rewrite applyShellResult_heap.
    + now rewrite applyShellResult_heap.
  - destruct (shelljs_which h "minishift" _ w1) as [found' w3].
    destruct (truthy found'); [|reflexivity].
    destruct (shelljs_exec h "minishift docker-env" _ w3) as [r' w4].
    now rewrite applyShellResult_heap.
Qed.

End AutoDockerEnvConfig.

(** C1, at the spec's fake [minikube]: the helper is found, exits 0 with one
    [export] line for [DOCKER_HOST] and empty standard error; the call throws
    at line 172 and [DOCKER_HOST] is left unset. *)
Theorem autoDockerEnvConfig_minikube_output_dropped :
  let host := example_host "linux" [] [("minikube", helper_success)] in
  let out := autoDockerEnvConfig host ProcessEnv empty_state tt in
  completion out = Threw TypeError
  /\ executed (state_after out) = ["minikube docker-env"]
  /\ obj_get (process_env (state_after out)) "DOCKER_HOST" = None.
Proof. cbv zeta. repeat split. Qed.



Lemma autoDockerEnvConfig_returns_false_witness :
  let host := example_host "linux" [] [("minishift", helper_success)] in
  let out := autoDockerEnvConfig host ProcessEnv empty_state tt in
  (exists b, completion out = Returned b /\ b = false)
  /\ obj_get (process_env (state_after out)) "DOCKER_HOST"
     = Some "tcp://1.2.3.4:2376".
Proof.
  cbv zeta. split; [|reflexivity].
  exists false. split; [reflexivity|].
  apply (autoDockerEnvConfig_returns_false
           (example_host "linux" [] [("minishift", helper_success)])
           ProcessEnv empty_state tt false).
  reflexivity.
Defined.

Lemma autoDockerEnvConfig_keeps_explicit_configuration_witness :
  let host := example_host "linux" [] [("minishift", helper_success)] in
  let st := state_with_env [("DOCKER_HOST", "tcp://9.9.9.9:2376")] in
  let out := autoDockerEnvConfig host ProcessEnv st tt in
  completion out = Returned false
  /\ state_after out = st
  /\ executed (state_after out) = executed st
  /\ process_env (state_after out) = process_env st
  /\ world_after out = tt.
Proof.
  apply (autoDockerEnvConfig_keeps_explicit_configuration
           (example_host "linux" [] [("minishift", helper_success)])
           ProcessEnv (state_with_env [("DOCKER_HOST", "tcp://9.9.9.9:2376")])
           tt "tcp://9.9.9.9:2376").
  - discriminate.
  - left. reflexivity.
Defined.

(** C4, as stated, fails: [DOCKER_HOST] is set, to the empty string; the
    test of line 148 takes it for unset, [minishift docker-env] is run and
    [DOCKER_HOST] is overwritten. *)
Lemma autoDockerEnvConfig_overrides_empty_DOCKER_HOST :
  let host := example_host "linux" [] [("minishift", helper_success)] in
  let st := state_with_env [("DOCKER_HOST", "")] in
  let out := autoDockerEnvConfig host ProcessEnv st tt in
  obj_get (process_env st) "DOCKER_HOST" = Some ""
  /\ executed (state_after out) = ["minishift docker-env"]
  /\ process_env (state_after out) = [("DOCKER_HOST", "tcp://1.2.3.4:2376")]
  /\ process_env (state_after out) <> process_env st.
Proof. cbv zeta. repeat split. discriminate. Qed.

Lemma autoDockerEnvConfig_no_helper_witness :
  let host := example_host "linux" [] [] in
  completion (autoDockerEnvConfig host ProcessEnv empty_state tt)
  = Returned false
  /\ state_after (autoDockerEnvConfig host ProcessEnv empty_state tt)
     = empty_state.
Proof.
  apply (autoDockerEnvConfig_no_helper (example_host "linux" [] [])
           ProcessEnv empty_state tt); reflexivity.
Defined.

(* ================================================================= *)
(** ** Objects and the store: laws *)

Lemma obj_get_set_same (o : JsObject) (k v : string) :
  obj_get (obj_set o k v) k = Some v.
Proof.
  induction o as [|[k' v'] o IH]; simpl.
  - now rewrite String.eqb_refl.
  - destruct (k' =? k) eqn:E; simpl; rewrite E; auto.
Qed.

Lemma obj_get_set_other (o : JsObject) (k k' v : string) :
  k' <> k -> obj_get (obj_set o k v) k' = obj_get o k'.
Proof.
  intros Hk. induction o as [|[k0 v0] o IH]; simpl.
  - destruct (String.eqb_spec k k'); congruence.
  - destruct (String.eqb_spec k0 k) as [->|]; simpl.
    + destruct (String.eqb_spec k k'); congruence.
    + now rewrite IH.
Qed.

Lemma obj_set_fresh (o : JsObject) (k v : string) :
  ~ In k (obj_keys o) -> obj_set o k v = (o ++ [(k, v)])%list.
Proof.
  induction o as [|[k' v'] o IH]; simpl; intros Hk; [reflexivity|].
  destruct (String.eqb_spec k' k) as [->|]; [tauto|].
  rewrite IH; tauto.
Qed.

Lemma existsb_proto (l : list string) :
  ~ In "__proto__" l -> existsb (String.eqb "__proto__") l = false.
Proof.
  induction l as [|x l IH]; cbn [existsb In]; intros Hl; [reflexivity|].
  destruct (String.eqb_spec "__proto__" x) as [E|E]; cbn [orb].
  - exfalso. apply Hl. left. now symmetry.
  - apply IH. tauto.
Qed.

(** [Object.assign] on a target without [__proto__]: the properties of the
    source are added in order, [__proto__] left out. *)
Lemma obj_put_proto (target : JsObject) (v : string) :
  ~ In "__proto__" (obj_keys target) -> obj_put target "__proto__" v = target.
Proof.
  intros Hproto. unfold obj_put. now rewrite (existsb_proto _ Hproto).
Qed.

Lemma obj_put_other (target : JsObject) (k v : string) :
  k <> "__proto__" -> obj_put target k v = obj_set target k v.
Proof.
  intros Hk. unfold obj_put.
  destruct (String.eqb_spec k "__proto__"); [contradiction|reflexivity].
Qed.

(** [Object.assign] on a target without [__proto__]: the properties of the
    source are added in order, [__proto__] left out. *)
Lemma obj_assign_wf (source : JsObject) :
  forall target,
    wf_object (target ++ source)%list ->
    ~ In "__proto__" (obj_keys target) ->
    obj_assign target source
    = (target
         ++ filter (fun kv => negb (fst kv =? "__proto__")) source)%list.
Proof.
  unfold wf_object.
  induction source as [|[k v] source IH]; intros target Hwf Hproto.
  - cbn. now rewrite app_nil_r.
  - assert (Hk : ~ In k (obj_keys target)).
    { unfold obj_keys in *. rewrite map_app in Hwf. simpl in Hwf.
      apply NoDup_remove_2 in Hwf. intros Hin. apply Hwf.
      apply in_or_app. now left. }
    change (obj_assign target ((k, v) :: source))
      with (obj_assign (obj_put target k v) source).
    cbn [filter fst].
    destruct (String.eqb_spec k "__proto__") as [->|Hne]; cbn [negb].
    + rewrite (obj_put_proto _ _ Hproto). apply IH; [|assumption].
      unfold obj_keys in *. rewrite map_app in Hwf |- *. simpl in Hwf.
      now apply NoDup_remove_1 in Hwf.
    + rewrite (obj_put_other _ _ _ Hne), (obj_set_fresh target k v Hk).
      rewrite IH.
      * now rewrite <- app_assoc.
      * now rewrite <- app_assoc.
      * unfold obj_keys in *. rewrite map_app. intros Hin.
        apply in_app_or in Hin as [Hin|[E|[]]]; [tauto|].
        simpl in E. congruence.
Qed.

Lemma obj_get_without_proto (o : JsObject) (k : string) :
  k <> "__proto__" ->
  obj_get (filter (fun kv => negb (fst kv =? "__proto__")) o) k = obj_get o k.
Proof.
  intros Hk.
  induction o as [|[k0 v0] o IH]; cbn [filter obj_get fst]; [reflexivity|].
  destruct (String.eqb_spec k0 "__proto__") as [->|Hne];
    cbn [negb obj_get].
  - destruct (String.eqb_spec "__proto__" k); [congruence|assumption].
  - now rewrite IH.
Qed.

(** [Object.assign({}, o)] is a copy of [o] but for [__proto__]: every other
    name has the value it has in [o]. *)
Lemma obj_assign_copy_get (o : JsObject) (k : string) :
  wf_object o -> k <> "__proto__" ->
  obj_get (obj_assign [] o) k = obj_get o k.
Proof.
  intros Hwf Hk. rewrite obj_assign_wf by (assumption || (intros [])).
  now apply obj_get_without_proto.
Qed.

(** The names of the copy, looked through for one that is not [__proto__]:
    the first found is the first of [o]. *)
Lemma obj_assign_copy_find (f : string -> bool) (o : JsObject) :
  wf_object o -> f "__proto__" = false ->
  find f (obj_keys (obj_assign [] o)) = find f (obj_keys o).
Proof.
  intros Hwf Hf. rewrite obj_assign_wf by (assumption || (intros [])).
  cbn [app]. clear Hwf. unfold obj_keys.
  induction o as [|[k0 v0] o IH]; cbn [filter map find fst];
    [reflexivity|].
  destruct (String.eqb_spec k0 "__proto__") as [->|Hne];
    cbn [negb map find fst].
  - now rewrite Hf.
  - now rewrite IH.
Qed.

Lemma update_nth_last {A : Type} (f : A -> A) (l : list A) (x : A) :
  update_nth (List.length l) f (l ++ [x]) = (l ++ [f x])%list.
Proof. induction l as [|y l IH]; simpl; congruence. Qed.

Lemma deref_last (st : State) (objs : list JsObject) (o : JsObject) :
  heap st = (objs ++ [o])%list -> deref st (Obj (List.length objs)) = o.
Proof. intros H. simpl. rewrite H. apply nth_middle. Qed.

Lemma deref_earlier (st st' : State) (o' : JsObject) (n : nat) :
  heap st' = (heap st ++ [o'])%list ->
  (n < List.length (heap st))%nat ->
  deref st' (Obj n) = deref st (Obj n).
Proof. intros H Hn. simpl. rewrite H. now apply app_nth1. Qed.

(* ================================================================= *)
(** ** PATH values *)

Lemma concat_snoc (sep d : string) (l : list string) :
  l <> [] ->
  String.concat sep (l ++ [d]) = String.concat sep l ++ sep ++ d.
Proof.
  induction l as [|x l IH]; intros Hl; [congruence|].
  destruct l as [|y l]; [reflexivity|].
  change (String.concat sep ((x :: y :: l) ++ [d]))
    with (x ++ sep ++ String.concat sep ((y :: l) ++ [d])).
  rewrite IH by discriminate.
  change (String.concat sep (x :: y :: l))
    with (x ++ sep ++ String.concat sep (y :: l)).
  now rewrite !append_assoc.
Qed.

Lemma append_nonempty (a b : string) : a <> "" -> a ++ b <> "".
Proof. destruct a; [congruence|discriminate]. Qed.

Lemma concat_head_nonempty (sep x : string) (l : list string) :
  x <> "" -> String.concat sep (x :: l) <> "".
Proof.
  intros Hx. destruct l as [|y l]; [exact Hx|].
  change (String.concat sep (x :: y :: l))
    with (x ++ sep ++ String.concat sep (y :: l)).
  now apply append_nonempty.
Qed.

(** Line 133 on a PATH that already holds the directories [ds]: one more
    directory behind them. *)
Lemma path_appended_snoc (sep d : string) (current : option string)
    (ds : list string) :
  Forall (fun x => x <> "") ds ->
  Some ((if truthy (path_appended sep current ds)
         then to_js_string (path_appended sep current ds) ++ sep
         else "") ++ d)
  = path_appended sep current (ds ++ [d]).
Proof.
  intros Hds. destruct ds as [|d1 ds]; simpl.
  - unfold path_entries. destruct (truthy current); simpl.
    + now rewrite append_assoc.
    + reflexivity.
  - assert (Hne : (path_entries current ++ d1 :: ds)%list <> [])
      by (destruct (path_entries current); discriminate).
    assert (Htruthy : truthy_string
              (String.concat sep (path_entries current ++ d1 :: ds)%list)
            = true).
    { apply truthy_string_nonempty. unfold path_entries.
      destruct current as [c|]; simpl.
      - destruct (truthy_string c) eqn:Hc.
        + apply concat_head_nonempty. now apply truthy_string_nonempty.
        + apply concat_head_nonempty. now inversion Hds.
      - apply concat_head_nonempty. now inversion Hds. }
    rewrite Htruthy. f_equal.
    change (path_entries current ++ d1 :: (ds ++ [d]))%list
      with (path_entries current ++ (d1 :: ds) ++ [d])%list.
    rewrite app_assoc, concat_snoc by assumption.
    now rewrite append_assoc.
Qed.

(* ================================================================= *)
(** ** [shellEnvironment] (lines 120-143) *)

Section ShellEnvironment.

Context {World : Type} (h : Host World).

Lemma configured_dirs_cons (tool : string) (ts : list string) :
  configured_dirs h (tool :: ts)
  = (configured_dirs h [tool] ++ configured_dirs h ts)%list.
Proof. unfold configured_dirs. simpl. now rewrite app_nil_r. Qed.

Lemma configured_dirs_nonempty (ts : list string) :
  (forall p, path_dirname h p <> "") ->
  Forall (fun d => d <> "") (configured_dirs h ts).
Proof.
  intros Hdir. unfold configured_dirs. apply Forall_forall. intros d Hd.
  apply in_flat_map in Hd as (tool & _ & Hd).
  destruct (truthy _); [|contradiction].
  destruct Hd as [<-|[]]. apply Hdir.
Qed.

(** The name under which PATH is kept lowers to [path], so it is not
    [KUBECONFIG]. *)
Lemma pathVariableName_lower (env : JsObject) :
  toLowerCase (pathVariableName h env) = "path".
Proof.
  unfold pathVariableName. destruct (isWindows _); [|reflexivity].
  destruct (find _ (obj_keys env)) as [v|] eqn:E; [|reflexivity].
  apply find_some in E as [_ E]. now apply String.eqb_eq in E.
Qed.

Lemma pathVariableName_not_KUBECONFIG (env : JsObject) :
  "KUBECONFIG" <> pathVariableName h env.
Proof.
  intros E. pose proof (pathVariableName_lower env) as H.
  rewrite <- E in H. discriminate H.
Qed.

(** One round of the loop, run on the newest object of the store: the older
    objects stay, and when the round returns, the newest object differs at
    most in its PATH, which has the tool's directory (if configured) behind
    what it held. *)
Lemma toolStep_inv (objs : list JsObject) (pv tool : string) (st : State)
    (w : World) (o : JsObject) :
  heap st = (objs ++ [o])%list ->
  let r := toolStep h (Obj (List.length objs)) pv tool st w in
  exists o',
    heap (state_after r) = (objs ++ [o'])%list
    /\ (forall u, completion r = Returned u ->
        (forall k, k <> pv -> obj_get o' k = obj_get o k)
        /\ forall current ds,
             Forall (fun d => d <> "") ds ->
             obj_get o pv
             = path_appended (pathEntrySeparator (process_platform h))
                 current ds ->
             obj_get o' pv
             = path_appended (pathEntrySeparator (process_platform h))
                 current (ds ++ configured_dirs h [tool])).
Proof.
  intros Hheap. unfold toolStep, configured_dirs. cbn [flat_map].
  destruct (truthy (configuration h _)) eqn:Hconf.
  - pose proof (autoDockerEnvConfig_heap h (Obj (List.length objs)) st w)
      as Hkeep.
    rewrite (deref_last st objs o Hheap).
    destruct (completion (autoDockerEnvConfig h _ st w)) as [b|e].
    + eexists. cbn [state_after completion assign_prop heap].
      rewrite Hkeep, Hheap, update_nth_last. split; [reflexivity|].
      intros _ _. split.
      * intros k Hk. now apply obj_get_set_other.
      * intros current ds Hds Hcur. rewrite obj_get_set_same, Hcur.
        rewrite app_nil_r. now apply path_appended_snoc.
    + exists o. cbn [state_after completion]. rewrite Hkeep.
      split; [assumption|]. discriminate.
  - exists o. cbn [state_after completion]. split; [assumption|].
    intros _ _. split; [reflexivity|].
    intros current ds _ Hcur. now rewrite app_nil_r.
Qed.

Lemma forTools_inv (objs : list JsObject) (pv : string) (ts : list string) :
  forall (st : State) (w : World) (o : JsObject),
    heap st = (objs ++ [o])%list ->
    let r := forTools h (Obj (List.length objs)) pv ts st w in
    exists o',
      heap (state_after r) = (objs ++ [o'])%list
      /\ (forall u, completion r = Returned u ->
          (forall p, path_dirname h p <> "") ->
          (forall k, k <> pv -> obj_get o' k = obj_get o k)
          /\ forall current ds,
               Forall (fun d => d <> "") ds ->
               obj_get o pv
               = path_appended (pathEntrySeparator (process_platform h))
                   current ds ->
               obj_get o' pv
               = path_appended (pathEntrySeparator (process_platform h))
                   current (ds ++ configured_dirs h ts)).
Proof.
  induction ts as [|tool rest IH]; intros st w o Hheap; cbn [forTools].
  - exists o. cbn. split; [assumption|]. intros _ _ _.
    split; [reflexivity|]. intros current ds _ Hcur. now rewrite app_nil_r.
  - destruct (toolStep_inv objs pv tool st w o Hheap) as (o1 & Hheap1 & H1).
    cbv zeta in Hheap1, H1 |- *.
    destruct (completion (toolStep h _ pv tool st w)) as [u1|e] eqn:Hc.
    + destruct (IH _ (world_after (toolStep h (Obj (List.length objs)) pv
                                     tool st w)) o1 Hheap1)
        as (o' & Hheap' & H').
      cbv zeta in Hheap', H'. exists o'. split; [assumption|].
      intros u Hu Hdir. destruct (H1 u1 eq_refl) as [Hother1 Hpath1].
      destruct (H' u Hu Hdir) as [Hother' Hpath']. split.
      * intros k Hk. rewrite Hother', Hother1; auto.
      * intros current ds Hds Hcur.
        rewrite configured_dirs_cons, app_assoc. apply Hpath'.
        -- apply Forall_app. split; [assumption|].
           now apply configured_dirs_nonempty.
        -- now apply Hpath1.
    + exists o1. split; [assumption|]. rewrite Hc. discriminate.
Qed.

(** What [shellEnvironment] leaves in the store: the objects that were
    there, and one more. *)
Lemma shellEnvironment_heap (baseEnvironment : Ref) (st : State)
    (w : World) :
  exists o',
    heap (state_after (shellEnvironment h baseEnvironment st w))
    = (heap st ++ [o'])%list.
Proof.
  unfold shellEnvironment, alloc.
  set (copy := obj_assign [] (deref st baseEnvironment)).
  set (st0 := mkState (process_env st) (heap st ++ [copy]) (console st)
                (executed st)).
  destruct (forTools_inv (heap st) (pathVariableName h (deref st0
              (Obj (List.length (heap st))))) tools st0 w copy eq_refl)
    as (o' & Hheap & _).
  cbv zeta in Hheap.
  destruct (completion (forTools h _ _ tools st0 w)).
  - cbn [state_after]. destruct (truthy (configuration h _)).
    + eexists. cbn [assign_prop heap]. rewrite Hheap.
      apply update_nth_last.
    + eauto.
  - eauto.
Qed.

Lemma proto_not_path (e : JsObject) : "__proto__" <> pathVariableName h e.
Proof.
  intros E. pose proof (pathVariableName_lower e) as H.
  rewrite <- E in H. discriminate H.
Qed.

(** The copy of line 121 keeps PATH under the name it has in the base. *)
Lemma pathVariableName_copy (o : JsObject) :
  wf_object o ->
  pathVariableName h (obj_assign [] o) = pathVariableName h o.
Proof.
  intros Hwf. unfold pathVariableName.
  now rewrite (obj_assign_copy_find _ o Hwf eq_refl).
Qed.

(** C2, as amended. When [shellEnvironment] returns, the PATH-equivalent
    variable of the environment it returns holds what the base environment
    held there (if set and not empty) followed by the directories of the
    configured tools in the order kubectl, helm, draft, joined by the path
    separator: each directory is appended, so a tool later in the order
    stands closer to the end. *)
Theorem shellEnvironment_appends_tool_directories (baseEnvironment : Ref)
    (st : State) (w : World) (env : Ref) :
  wf_object (deref st baseEnvironment) ->
  (forall p, path_dirname h p <> "") ->
  completion (shellEnvironment h baseEnvironment st w) = Returned env ->
  let pathVariable := pathVariableName h (deref st baseEnvironment) in
  obj_get
    (deref (state_after (shellEnvironment h baseEnvironment st w)) env)
    pathVariable
  = path_appended (pathEntrySeparator (process_platform h))
      (obj_get (deref st baseEnvironment) pathVariable)
      (configured_dirs h tools).
Proof.
  intros Hwf Hdir. unfold shellEnvironment, alloc.
  set (copy := obj_assign [] (deref st baseEnvironment)).
  assert (Hpv : pathVariableName h copy
                = pathVariableName h (deref st baseEnvironment))
    by now apply pathVariableName_copy.
  assert (Hget : obj_get copy (pathVariableName h copy)
                 = obj_get (deref st baseEnvironment)
                     (pathVariableName h copy)).
  { apply obj_assign_copy_get; [assumption|].
    apply not_eq_sym, proto_not_path. }
  set (st0 := mkState (process_env st) (heap st ++ [copy]) (console st)
                (executed st)).
  rewrite (deref_last st0 (heap st) copy eq_refl).
  destruct (forTools_inv (heap st) (pathVariableName h copy) tools st0 w
              copy eq_refl) as (o' & Hheap & H).
  cbv zeta in Hheap, H.
  destruct (completion (forTools h _ _ tools st0 w)) as [u|e];
    [|discriminate].
  destruct (H u eq_refl Hdir) as [Hother Hpath].
  cbn [completion state_after]. intros E. injection E as <-. cbv zeta.
  rewrite <- Hpv, <- Hget.
  pose proof (Hpath (obj_get copy (pathVariableName h copy)) []
                (Forall_nil _) eq_refl) as Hp.
  cbn [app] in Hp. rewrite <- Hp.
  destruct (truthy (configuration h _)).
  - cbn [deref assign_prop heap]. rewrite Hheap, update_nth_last, nth_middle.
    apply obj_get_set_other. apply not_eq_sym.
    apply pathVariableName_not_KUBECONFIG.
  - now rewrite (deref_last _ _ _ Hheap).
Qed.

(** C10, as amended. An object of the caller other than [process.env] is
    the same before and after either call: [shellEnvironment] writes PATH
    and KUBECONFIG to a new object, which is what it returns, and
    [autoDockerEnvConfig] does not depend on its parameter and writes to
    [process.env] only. *)
Theorem caller_objects_not_mutated (baseEnvironment env : Ref)
    (st : State) (w : World) (n : nat) :
  (n < List.length (heap st))%nat ->
  deref (state_after (shellEnvironment h baseEnvironment st w)) (Obj n)
  = deref st (Obj n)
  /\ deref (state_after (autoDockerEnvConfig h env st w)) (Obj n)
     = deref st (Obj n)
  /\ (forall r,
        completion (shellEnvironment h baseEnvironment st w) = Returned r ->
        r = Obj (List.length (heap st)))
  /\ (forall env',
        autoDockerEnvConfig h env' st w = autoDockerEnvConfig h env st w).
Proof.
  intros Hn. repeat split.
  - destruct (shellEnvironment_heap baseEnvironment st w) as (o' & Hheap).
    eapply deref_earlier; eassumption.
  - cbn [deref]. now rewrite autoDockerEnvConfig_heap.
  - unfold shellEnvironment, alloc.
    destruct (completion (forTools h _ _ tools _ w)); cbn; congruence.
Qed.

End ShellEnvironment.

Lemma example_dirname_nonempty (p : string) : example_dirname p <> "".
Proof.
  unfold example_dirname.
  destruct (strip_last_component p) as [[|c d]|]; discriminate.
Qed.

Lemma shellEnvironment_appends_tool_directories_witness :
  let host := example_host "linux" tool_settings [] in
  let out := shellEnvironment host (Obj 0) state_with_caller_env tt in
  obj_get (deref (state_after out) (Obj 1)) "PATH"
  = Some "/usr/bin:/opt/k:/opt/h".
Proof.
  apply (shellEnvironment_appends_tool_directories
           (example_host "linux" tool_settings []) (Obj 0)
           state_with_caller_env tt (Obj 1)).
  - repeat constructor. simpl. tauto.
  - exact example_dirname_nonempty.
  - reflexivity.
Defined.

(** C2, as stated, fails: with [/usr/bin] in PATH and kubectl and helm
    configured, the result is [/usr/bin:/opt/k:/opt/h]; prepending each
    directory would have given [/opt/h:/opt/k:/usr/bin]. *)
Lemma shellEnvironment_does_not_prepend :
  let host := example_host "linux" tool_settings [] in
  let st := state_with_caller_env in
  let out := shellEnvironment host (Obj 0) st tt in
  completion out = Returned (Obj 1)
  /\ configured_dirs host tools = ["/opt/k"; "/opt/h"]
  /\ obj_get (deref (state_after out) (Obj 1)) "PATH"
     = Some "/usr/bin:/opt/k:/opt/h"
  /\ path_prepended ":" (obj_get (deref st (Obj 0)) "PATH")
       (configured_dirs host tools)
     = Some "/opt/h:/opt/k:/usr/bin"
  /\ obj_get (deref (state_after out) (Obj 1)) "PATH"
     <> path_prepended ":" (obj_get (deref st (Obj 0)) "PATH")
          (configured_dirs host tools).
Proof. cbv zeta. repeat split. discriminate. Qed.

Lemma caller_objects_not_mutated_witness :
  let host := example_host "linux" tool_settings
                [("minishift", helper_success)] in
  let st := mkState [] [[("PATH", "/usr/bin")]] [] [] in
  deref (state_after (shellEnvironment host (Obj 0) st tt)) (Obj 0)
  = [("PATH", "/usr/bin")]
  /\ deref (state_after (autoDockerEnvConfig host (Obj 0) st tt)) (Obj 0)
     = [("PATH", "/usr/bin")]
  /\ (forall r,
        completion (shellEnvironment host (Obj 0) st tt) = Returned r ->
        r = Obj 1)
  /\ (forall env',
        autoDockerEnvConfig host env' st tt
        = autoDockerEnvConfig host (Obj 0) st tt).
Proof.
  apply (caller_objects_not_mutated
           (example_host "linux" tool_settings
              [("minishift", helper_success)])
           (Obj 0) (Obj 0) (mkState [] [[("PATH", "/usr/bin")]] [] [])
           tt 0).
  simpl. lia.
Defined.

(** C10, as stated, fails: when the mapping handed in is [process.env]
    itself, as [execOpts] does off Windows (lines 90-94), the variables that
    [autoDockerEnvConfig] sets show up in it. *)
Lemma process_env_argument_is_mutated :
  let host := example_host "linux" tool_settings
                [("minishift", helper_success)] in
  let st := mkState [("PATH", "/usr/bin")] [] [] [] in
  deref st ProcessEnv = [("PATH", "/usr/bin")]
  /\ deref (state_after (shellEnvironment host ProcessEnv st tt)) ProcessEnv
     = [("PATH", "/usr/bin"); ("DOCKER_HOST", "tcp://1.2.3.4:2376")]
  /\ deref (state_after (autoDockerEnvConfig host ProcessEnv st tt))
       ProcessEnv
     = [("PATH", "/usr/bin"); ("DOCKER_HOST", "tcp://1.2.3.4:2376")]
  /\ deref (state_after (shellEnvironment host ProcessEnv st tt)) ProcessEnv
     <> deref st ProcessEnv
  /\ deref (state_after (autoDockerEnvConfig host ProcessEnv st tt))
       ProcessEnv
     <> deref st ProcessEnv.
Proof. cbv zeta. repeat split; discriminate. Qed.

(* ================================================================= *)
(** ** Further properties: the pattern and the lines *)

(** X1. On a line without CR or LF, [regexp.exec] of line 179 returns a
    match exactly when the line is [export], white space (none included),
    NAME, [=], VALUE; the match is then the line, NAME and VALUE, and a line
    has one such reading at most. *)
Theorem docker_env_regexp_matches_export_form (line : string)
    (m : list string) :
  all_chars is_dot line = true ->
  (regexp_exec docker_env_regexp line = Some m <->
   exists name value,
     m = [line; name; value] /\ export_line line name value)
  /\ (forall name value name' value',
        export_line line name value ->
        export_line line name' value' ->
        name = name' /\ value = value').
Proof.
  intros Hline. split; [split|].
  - unfold regexp_exec.
    destruct (regex_match docker_env_regexp [] line) as [caps|] eqn:E;
      [|discriminate].
    intros H. injection H as <-.
    apply docker_env_regexp_sound in E.
    destruct E as (name & value & -> & Hex & _). eauto.
  - intros (name & value & -> & Hex). unfold regexp_exec.
    rewrite (docker_env_regexp_complete line name value Hex);
      [reflexivity|].
    eapply export_line_value_dot; eassumption.
  - intros name value name' value'. now apply export_line_unique.
Qed.

Lemma docker_env_regexp_matches_export_form_witness :
  exists name value,
    ["export  KEY_1=a=b c"; "KEY_1"; "a=b c"]
    = ["export  KEY_1=a=b c"; name; value]
    /\ export_line "export  KEY_1=a=b c" name value.
Proof.
  apply (proj1 (proj1 (docker_env_regexp_matches_export_form
                         "export  KEY_1=a=b c"
                         ["export  KEY_1=a=b c"; "KEY_1"; "a=b c"]
                         eq_refl))).
  reflexivity.
Defined.

(** X2. Lines 174-176 keep exactly the lines of the output: every text is a
    run of CR and LF followed by lines, each with the run that ends it, and
    what is kept is those lines, in order; none of them is empty or holds a
    CR or LF. *)
Theorem nonempty_lines_are_the_lines (out : string) :
  Forall (fun l => l <> "" /\ all_chars is_dot l = true) (nonempty_lines out)
  /\ exists lead items,
       all_chars is_newline lead = true /\ laid_out items
       /\ out = lead ++ lines_text items
       /\ nonempty_lines out = map fst items.
Proof.
  split.
  - pose proof (nonempty_lines_dot out) as Hdot.
    rewrite Forall_forall in Hdot |- *. intros l Hl. split.
    + unfold nonempty_lines in Hl. apply filter_In in Hl as [_ Hl].
      destruct l; [discriminate|discriminate].
    + now apply Hdot.
  - destruct (laid_out_exists out) as (lead & items & Hlead & Hitems & ->).
    exists lead, items. repeat split; try assumption.
    now apply nonempty_lines_laid_out.
Qed.

(* ================================================================= *)
(** ** Further properties: [autoDockerEnvConfig] *)


(** A variable that no line exports is left alone. *)
Lemma applied_get_frame (lines : list string) (k : string) :
  forall e e',
    applied export_assignment lines e e' ->
    (forall line value, In line lines -> ~ export_line line k value) ->
    obj_get e' k = obj_get e k.
Proof.
  induction lines as [|line rest IH]; intros e e' Happ Hno.
  - inversion Happ; reflexivity.
  - inversion Happ as [|l rs name value ? ? Hp Hr|l rs ? ? Hn Hr]; subst.
    + rewrite (IH _ _ Hr) by (intros; apply Hno; now right).
      apply obj_get_set_other. intros ->.
      exact (Hno line value (or_introl eq_refl) (proj2 Hp)).
    + apply (IH _ _ Hr). intros; apply Hno; now right.
Qed.


Lemma helper_failed (r : ShellResult) :
  code r <> 0%Z \/ stderr r <> "" ->
  (code r =? 0)%Z && negb (truthy_string (stderr r)) = false
  /\ negb (code r =? 0)%Z || truthy_string (stderr r) = true.
Proof.
  intros [Hcode|Herr].
  - apply Z.eqb_neq in Hcode. rewrite Hcode. auto.
  - apply truthy_string_nonempty in Herr. rewrite Herr.
    rewrite andb_false_r, orb_true_r. auto.
Qed.

Lemma mapLines_executed (lines : list string) :
  forall st, executed (snd (mapLines lines st)) = executed st.
Proof.
  induction lines as [|line rest IH]; intros st; simpl; [reflexivity|].
  assert (Hline : executed (snd (applyLine line st)) = executed st).
  { unfold applyLine. destruct (regexp_exec _ line) as [m|]; [|reflexivity].
    destruct (2 <=? List.length m)%nat; [|reflexivity].
    destruct (nth_error m 2); [|reflexivity].
    unfold assign_prop. destruct (_ =? _)%string; reflexivity. }
  destruct (applyLine line st) as [[u|e] st1]; simpl in *.
  - now rewrite IH.
  - assumption.
Qed.

Lemma applyShellResult_executed {World : Type}
    (shellResult : option ShellResult) (st : State) (w : World) :
  executed (state_after (applyShellResult shellResult st w)) = executed st.
Proof.
  unfold applyShellResult. destruct shellResult as [r|]; [|reflexivity].
  destruct (_ && _); [|reflexivity].
  pose proof (mapLines_executed
                (filter (fun l => (0 <? String.length l)%nat)
                   (split_lines (stdout r))) st) as H.
  destruct (mapLines _ st) as [[u|e] st']; exact H.
Qed.

Section AutoDockerEnvConfigMore.

Context {World : Type} (h : Host World).

(** The call when a result that succeeded reaches line 172. *)
Lemma autoDockerEnvConfig_applied (env0 : Ref) (st st1 : State)
    (w w1 : World) (r : ShellResult) :
  truthy (obj_get (process_env st) "DOCKER_HOST") = false ->
  truthy (obj_get (process_env st) "DOCKER_CERT_PATH") = false ->
  tryHelpers h st w = inr (Some r, st1, w1) ->
  code r = 0%Z ->
  stderr r = "" ->
  completion (autoDockerEnvConfig h env0 st w) = Returned false
  /\ applied export_assignment (nonempty_lines (stdout r)) (process_env st)
       (process_env (state_after (autoDockerEnvConfig h env0 st w))).
Proof.
  intros Hh Hc Htry Hcode Herr. unfold autoDockerEnvConfig.
  rewrite Hh, Hc, Htry. cbn [negb andb].
  destruct (tryHelpers_frame h _ _ _ _ _ Htry) as (Henv & _).
  rewrite <- Henv.
  destruct (applyShellResult_applied r st1 w1 Hcode Herr) as (H1 & H2 & _).
  auto.
Qed.

(** X3. Off Windows, when a helper's output is applied, a variable of
    [process.env] that no line of the output exports keeps the value it
    had, unset included. *)
Theorem autoDockerEnvConfig_keeps_unexported_variables (env0 : Ref)
    (st st1 : State) (w w1 : World) (r : ShellResult) (k : string) :
  isWindows (process_platform h) = false ->
  truthy (obj_get (process_env st) "DOCKER_HOST") = false ->
  truthy (obj_get (process_env st) "DOCKER_CERT_PATH") = false ->
  tryHelpers h st w = inr (Some r, st1, w1) ->
  code r = 0%Z ->
  stderr r = "" ->
  (forall line value,
     In line (nonempty_lines (stdout r)) -> ~ export_line line k value) ->
  obj_get (process_env (state_after (autoDockerEnvConfig h env0 st w))) k
  = obj_get (process_env st) k.
Proof.
  intros _ Hh Hc Htry Hcode Herr Hno.
  destruct (autoDockerEnvConfig_applied env0 st st1 w w1 r Hh Hc Htry Hcode
              Herr) as [_ Happ].
  exact (applied_get_frame _ k _ _ Happ Hno).
Qed.


(** X5. When the result that reaches line 172 has a non-zero exit code or
    text on standard error, the call returns [false], leaves every variable
    of [process.env] as it was and logs one line: the error text after
    [Error Configuring Docker :]. *)
Theorem autoDockerEnvConfig_helper_failure (env0 : Ref) (st st1 : State)
    (w w1 : World) (r : ShellResult) :
  truthy (obj_get (process_env st) "DOCKER_HOST") = false ->
  truthy (obj_get (process_env st) "DOCKER_CERT_PATH") = false ->
  tryHelpers h st w = inr (Some r, st1, w1) ->
  code r <> 0%Z \/ stderr r <> "" ->
  let out := autoDockerEnvConfig h env0 st w in
  completion out = Returned false
  /\ process_env (state_after out) = process_env st
  /\ heap (state_after out) = heap st
  /\ console (state_after out)
     = (console st
        ++ [("Error Configuring Docker :" ++ stderr r)%string])%list.
Proof.
  intros Hh Hc Htry Hfail. cbv zeta. unfold autoDockerEnvConfig.
  rewrite Hh, Hc, Htry. cbn [negb andb].
  destruct (tryHelpers_frame h _ _ _ _ _ Htry) as (Henv & Hheap & Hcons).
  unfold applyShellResult. rewrite (proj1 (helper_failed r Hfail)).
  cbn. rewrite Henv, Hheap, Hcons. auto.
Qed.


(** X7. When [minikube] is found but its [docker-env] fails and [minishift]
    is not found, the call returns [false] after that one command, with
    every variable of [process.env] and the console as they were: it does
    not throw. *)
Theorem autoDockerEnvConfig_minikube_failure_without_minishift (env0 : Ref)
    (st : State) (w w1 w2 w3 : World) (found found' : option string)
    (r : ShellResult) :
  shelljs_which h "minikube" (process_env st) w = (found, w1) ->
  truthy found = true ->
  shelljs_exec h "minikube docker-env" (process_env st) w1 = (r, w2) ->
  code r <> 0%Z \/ stderr r <> "" ->
  shelljs_which h "minishift" (process_env st) w2 = (found', w3) ->
  truthy found' = false ->
  truthy (obj_get (process_env st) "DOCKER_HOST") = false ->
  truthy (obj_get (process_env st) "DOCKER_CERT_PATH") = false ->
  let out := autoDockerEnvConfig h env0 st w in
  completion out = Returned false
  /\ executed (state_after out)
     = (executed st ++ ["minikube docker-env"])%list
  /\ process_env (state_after out) = process_env st
  /\ console (state_after out) = console st
  /\ world_after out = w3.
Proof.
  intros Hwhich Hfound Hexec Hfail Hwhich' Hfound' Hh Hc.
  cbv zeta. unfold autoDockerEnvConfig, tryHelpers.
  rewrite Hh, Hc, Hwhich, Hfound, Hexec, (proj2 (helper_failed r Hfail)).
  cbn [negb andb process_env record_exec].
  rewrite Hwhich', Hfound'. cbn. auto.
Qed.

(** X8. Whatever the host answers, one call runs no command other than
    [minikube docker-env] and [minishift docker-env], each once at most and
    in that order. *)
Theorem autoDockerEnvConfig_commands (env0 : Ref) (st : State) (w : World) :
  exists cmds,
    executed (state_after (autoDockerEnvConfig h env0 st w))
    = (executed st ++ cmds)%list
    /\ (cmds = [] \/ cmds = ["minikube docker-env"]
        \/ cmds = ["minishift docker-env"]
        \/ cmds = ["minikube docker-env"; "minishift docker-env"]).
Proof.
  unfold autoDockerEnvConfig, tryHelpers.
  destruct (_ && _); [|exists []; cbn; rewrite app_nil_r; auto].
  destruct (shelljs_which h "minikube" _ w) as [found w1].
  destruct (truthy found).
  - destruct (shelljs_exec h "minikube docker-env" _ w1) as [r w2].
    destruct (_ || _).
    + destruct (shelljs_which h "minishift" _ w2) as [found' w3].
      destruct (truthy found').
      * destruct (shelljs_exec h "minishift docker-env" _ w3) as [r' w4].
        exists ["minikube docker-env"; "minishift docker-env"].
        rewrite applyShellResult_executed. cbn.
        rewrite <- app_assoc. auto 6.
      * exists ["minikube docker-env"]. cbn. auto.
    + exists ["minikube docker-env"].
      rewrite applyShellResult_executed. cbn. auto.
  - destruct (shelljs_which h "minishift" _ w1) as [found' w3].
    destruct (truthy found').
    + destruct (shelljs_exec h "minishift docker-env" _ w3) as [r' w4].
      exists ["minishift docker-env"].
      rewrite applyShellResult_executed. cbn. auto.
    + exists []. cbn. rewrite app_nil_r. auto.
Qed.

End AutoDockerEnvConfigMore.

(** What the matcher finds on a line is the only reading of the line. *)
Lemma export_name_decided (line n v : string) :
  all_chars is_dot line = true ->
  regex_match docker_env_regexp [] line = Some [n; v] ->
  forall k v', export_line line k v' -> k = n /\ v' = v.
Proof.
  intros Hline E k v' Hex.
  apply docker_env_regexp_sound in E.
  destruct E as (n0 & v0 & E & Hex0 & _). injection E as <- <-.
  exact (export_line_unique _ _ _ _ _ Hline Hex Hex0).
Qed.

Lemma autoDockerEnvConfig_keeps_unexported_variables_witness :
  let host := example_host "linux" [] [("minishift", helper_success)] in
  let st := state_with_env [("LANG", "C")] in
  obj_get (process_env (state_after (autoDockerEnvConfig host ProcessEnv st
                                       tt))) "LANG"
  = Some "C".
Proof.
  apply (autoDockerEnvConfig_keeps_unexported_variables
           (example_host "linux" [] [("minishift", helper_success)])
           ProcessEnv (state_with_env [("LANG", "C")])
           (record_exec "minishift docker-env"
              (state_with_env [("LANG", "C")]))
           tt tt helper_success "LANG"); try reflexivity.
  intros line value Hin Hex. vm_compute in Hin. destruct Hin as [<-|[]].
  eapply export_name_decided in Hex;
    [|reflexivity|vm_compute; reflexivity].
  destruct Hex as [E _]. discriminate E.
Defined.


Lemma autoDockerEnvConfig_helper_failure_witness :
  let host := example_host "linux" [] [("minishift", helper_failure)] in
  let st := state_with_env [("LANG", "C")] in
  let out := autoDockerEnvConfig host ProcessEnv st tt in
  completion out = Returned false
  /\ process_env (state_after out) = [("LANG", "C")]
  /\ heap (state_after out) = []
  /\ console (state_after out)
     = ["Error Configuring Docker :minikube is not running"].
Proof.
  apply (autoDockerEnvConfig_helper_failure
           (example_host "linux" [] [("minishift", helper_failure)])
           ProcessEnv (state_with_env [("LANG", "C")])
           (record_exec "minishift docker-env"
              (state_with_env [("LANG", "C")]))
           tt tt helper_failure); try reflexivity.
  left. discriminate.
Defined.


Lemma autoDockerEnvConfig_minikube_failure_without_minishift_witness :
  let host := example_host "linux" [] [("minikube", helper_failure)] in
  let out := autoDockerEnvConfig host ProcessEnv empty_state tt in
  completion out = Returned false
  /\ executed (state_after out) = ["minikube docker-env"]
  /\ process_env (state_after out) = []
  /\ console (state_after out) = []
  /\ world_after out = tt.
Proof.
  apply (autoDockerEnvConfig_minikube_failure_without_minishift
           (example_host "linux" [] [("minikube", helper_failure)])
           ProcessEnv empty_state tt tt tt tt
           (Some "/usr/local/bin/minikube") None helper_failure);
    try reflexivity.
  left. discriminate.
Defined.

(* ================================================================= *)
(** ** Further properties: [shellEnvironment] and its callers *)

Lemma obj_set_keys_in (o : JsObject) (k v x : string) :
  In x (obj_keys (obj_set o k v)) -> In x (obj_keys o) \/ x = k.
Proof.
  induction o as [|[k0 v0] o IH]; simpl.
  - intros [<-|[]]. now right.
  - destruct (k0 =? k); simpl; [tauto|].
    intros [<-|H]; [tauto|]. destruct (IH H); tauto.
Qed.

Lemma obj_set_wf (o : JsObject) (k v : string) :
  wf_object o -> wf_object (obj_set o k v).
Proof.
  unfold wf_object. induction o as [|[k0 v0] o IH]; simpl; intros Hwf.
  - repeat constructor. intros [].
  - destruct (String.eqb_spec k0 k) as [->|Hne]; [exact Hwf|].
    inversion Hwf as [|? ? Hnotin Hrest]; subst. simpl. constructor.
    + intros Hin. apply obj_set_keys_in in Hin as [Hin|Hin]; congruence.
    + now apply IH.
Qed.

Lemma obj_assign_keeps_wf (source : JsObject) :
  forall target, wf_object target -> wf_object (obj_assign target source).
Proof.
  unfold obj_assign.
  induction source as [|[k v] source IH]; intros target Hwf; simpl.
  - assumption.
  - apply IH. unfold obj_put. destruct (_ && _); [assumption|].
    now apply obj_set_wf.
Qed.

Section ShellEnvironmentMore.

Context {World : Type} (h : Host World).

(** The loop leaves every variable but PATH as it was. *)
Lemma forTools_frame (objs : list JsObject) (pv : string)
    (ts : list string) :
  forall (st : State) (w : World) (o : JsObject),
    heap st = (objs ++ [o])%list ->
    forall u,
      completion (forTools h (Obj (List.length objs)) pv ts st w)
      = Returned u ->
      exists o',
        heap (state_after (forTools h (Obj (List.length objs)) pv ts st w))
        = (objs ++ [o'])%list
        /\ forall k, k <> pv -> obj_get o' k = obj_get o k.
Proof.
  induction ts as [|tool rest IH]; intros st w o Hheap u; cbn [forTools].
  - intros _. exists o. auto.
  - destruct (toolStep_inv h objs pv tool st w o Hheap) as (o1 & Hheap1 & H1).
    cbv zeta in Hheap1, H1.
    destruct (completion (toolStep h _ pv tool st w)) as [u1|e] eqn:Hc.
    + intros Hu.
      destruct (IH _ _ o1 Hheap1 u Hu) as (o' & Hheap' & Hother').
      exists o'. split; [assumption|].
      intros k Hk. rewrite Hother' by assumption.
      now apply (proj1 (H1 u1 eq_refl)).
    + rewrite Hc. discriminate.
Qed.

(** No tool configured: the loop does nothing. *)
Lemma forTools_unconfigured (e : Ref) (pv : string) (ts : list string)
    (st : State) (w : World) :
  (forall tool, In tool ts ->
     truthy (configuration h ("vs-kubernetes." ++ tool ++ "-path")) = false) ->
  forTools h e pv ts st w = Done (Returned tt) st w.
Proof.
  induction ts as [|tool rest IH]; intros Hno; cbn [forTools];
    [reflexivity|].
  unfold toolStep. rewrite (Hno tool (or_introl eq_refl)). cbn.
  apply IH. intros t Ht. apply Hno. now right.
Qed.

(** What [shellEnvironment] returns: the new object, which holds the
    variables of the base but PATH and [__proto__], and KUBECONFIG on
    top. *)
Lemma shellEnvironment_returned (baseEnvironment : Ref) (st : State)
    (w : World) (e : Ref) :
  wf_object (deref st baseEnvironment) ->
  completion (shellEnvironment h baseEnvironment st w) = Returned e ->
  e = Obj (List.length (heap st))
  /\ exists o',
       deref (state_after (shellEnvironment h baseEnvironment st w)) e
       = (if truthy (configuration h "vs-kubernetes.kubeconfig")
          then obj_set o' "KUBECONFIG"
                 (to_js_string (configuration h "vs-kubernetes.kubeconfig"))
          else o')
       /\ forall k,
            k <> pathVariableName h (deref st baseEnvironment) ->
            k <> "__proto__" ->
            obj_get o' k = obj_get (deref st baseEnvironment) k.
Proof.
  intros Hwf. unfold shellEnvironment, alloc.
  set (copy := obj_assign [] (deref st baseEnvironment)).
  pose proof (pathVariableName_copy h _ Hwf) as Hpv. fold copy in Hpv.
  set (st0 := mkState (process_env st) (heap st ++ [copy]) (console st)
                (executed st)).
  rewrite (deref_last st0 (heap st) copy eq_refl).
  pose proof (forTools_frame (heap st) (pathVariableName h copy) tools st0 w
                copy eq_refl) as H.
  destruct (completion (forTools h _ _ tools st0 w)) as [u|err];
    [|discriminate].
  destruct (H u eq_refl) as (o' & Hheap & Hother).
  cbn [completion state_after]. intros E. injection E as <-.
  split; [reflexivity|]. exists o'. split.
  2:{ intros k Hk Hproto. rewrite Hother by (now rewrite Hpv).
      now apply obj_assign_copy_get. }
  destruct (truthy (configuration h _)).
  - cbn [deref assign_prop heap].
    now rewrite Hheap, update_nth_last, nth_middle.
  - now rewrite (deref_last _ _ _ Hheap).
Qed.

(** X9. When [shellEnvironment] returns, the environment it returns holds
    every variable other than PATH, KUBECONFIG and [__proto__] (a name the
    copy of line 121 leaves out) with the value the base environment had
    when the call began; what auto-detection writes to [process.env] during
    the call is not in it. *)
Theorem shellEnvironment_keeps_other_variables (baseEnvironment : Ref)
    (st : State) (w : World) (e : Ref) (k : string) :
  wf_object (deref st baseEnvironment) ->
  completion (shellEnvironment h baseEnvironment st w) = Returned e ->
  k <> pathVariableName h (deref st baseEnvironment) ->
  k <> "KUBECONFIG" ->
  k <> "__proto__" ->
  obj_get (deref (state_after (shellEnvironment h baseEnvironment st w)) e) k
  = obj_get (deref st baseEnvironment) k.
Proof.
  intros Hwf Hret Hpath Hkube Hproto.
  destruct (shellEnvironment_returned _ _ _ _ Hwf Hret)
    as (_ & o' & -> & Hother).
  destruct (truthy _).
  - rewrite obj_get_set_other by assumption. now apply Hother.
  - now apply Hother.
Qed.

(** X10. When [shellEnvironment] returns, KUBECONFIG in the environment it
    returns is the configured kubeconfig path if there is one (not empty),
    whatever the base held, and what the base held otherwise. *)
Theorem shellEnvironment_sets_KUBECONFIG (baseEnvironment : Ref)
    (st : State) (w : World) (e : Ref) :
  wf_object (deref st baseEnvironment) ->
  completion (shellEnvironment h baseEnvironment st w) = Returned e ->
  (forall kubeconfig,
     configuration h "vs-kubernetes.kubeconfig" = Some kubeconfig ->
     kubeconfig <> "" ->
     obj_get
       (deref (state_after (shellEnvironment h baseEnvironment st w)) e)
       "KUBECONFIG"
     = Some kubeconfig)
  /\ (truthy (configuration h "vs-kubernetes.kubeconfig") = false ->
      obj_get
        (deref (state_after (shellEnvironment h baseEnvironment st w)) e)
        "KUBECONFIG"
      = obj_get (deref st baseEnvironment) "KUBECONFIG").
Proof.
  intros Hwf Hret.
  destruct (shellEnvironment_returned _ _ _ _ Hwf Hret)
    as (_ & o' & -> & Hother).
  split.
  - intros kubeconfig -> Hne. apply truthy_string_nonempty in Hne.
    cbn [truthy to_js_string]. rewrite Hne. apply obj_get_set_same.
  - intros ->. apply Hother; [|discriminate].
    apply pathVariableName_not_KUBECONFIG.
Qed.

(** X11. With no tool path configured, [shellEnvironment] returns the new
    object without running auto-detection: no helper is looked up or run,
    and [process.env], the console and the world stay as they were, also
    where a helper would have succeeded or the call would have thrown. *)
Theorem shellEnvironment_without_tools (baseEnvironment : Ref)
    (st : State) (w : World) :
  (forall tool, In tool tools ->
     truthy (configuration h ("vs-kubernetes." ++ tool ++ "-path")) = false) ->
  let out := shellEnvironment h baseEnvironment st w in
  completion out = Returned (Obj (List.length (heap st)))
  /\ process_env (state_after out) = process_env st
  /\ executed (state_after out) = executed st
  /\ console (state_after out) = console st
  /\ world_after out = w.
Proof.
  intros Hno. cbv zeta. unfold shellEnvironment, alloc.
  rewrite (forTools_unconfigured _ _ tools _ w Hno).
  cbn [completion state_after world_after].
  destruct (truthy (configuration h _)); cbn; auto.
Qed.

End ShellEnvironmentMore.

Lemma find_first {A : Type} (f : A -> bool) (l : list A) (x : A) :
  find f l = Some x ->
  exists before after,
    l = (before ++ x :: after)%list /\ f x = true
    /\ forall y, In y before -> f y = false.
Proof.
  induction l as [|a l IH]; simpl; [discriminate|].
  destruct (f a) eqn:Ha.
  - intros E. injection E as <-. exists [], l. repeat split; auto.
    intros y [].
  - intros E. destruct (IH E) as (before & after & -> & Hx & Hbefore).
    exists (a :: before), after. repeat split; auto.
    intros y [<-|Hy]; auto.
Qed.

Section CallersMore.

Context {World : Type} (h : Host World).

(** X12. Off Windows the PATH variable is always [PATH], whatever the
    environment holds. On Windows it is the first name of the environment,
    in the order of [Object.keys], that is [path] once lowered, so an
    existing [Path] is the variable that gets extended; it is [PATH] when no
    name lowers to [path]. *)
Theorem pathVariableName_first_match (e : JsObject) :
  (isWindows (process_platform h) = false -> pathVariableName h e = "PATH")
  /\ (isWindows (process_platform h) = true ->
      (forall k, In k (obj_keys e) -> toLowerCase k <> "path") ->
      pathVariableName h e = "PATH")
  /\ (isWindows (process_platform h) = true ->
      forall k, In k (obj_keys e) -> toLowerCase k = "path" ->
      exists before after,
        obj_keys e = (before ++ pathVariableName h e :: after)%list
        /\ toLowerCase (pathVariableName h e) = "path"
        /\ forall x, In x before -> toLowerCase x <> "path").
Proof.
  unfold pathVariableName. repeat split.
  - intros ->. reflexivity.
  - intros -> Hno.
    destruct (find _ (obj_keys e)) as [v|] eqn:E; [|reflexivity].
    apply find_some in E as [Hin Hv]. apply String.eqb_eq in Hv.
    now destruct (Hno v Hin).
  - intros -> k Hin Hk.
    destruct (find _ (obj_keys e)) as [v|] eqn:E.
    + destruct (find_first _ _ _ E) as (before & after & Hkeys & Hv & Hb).
      exists before, after. split; [assumption|].
      split; [now apply String.eqb_eq|].
      intros x Hx. apply String.eqb_neq. now apply Hb.
    + pose proof (find_none _ _ E k Hin) as Hnone. cbv beta in Hnone.
      apply String.eqb_neq in Hnone. contradiction.
Qed.

Lemma HOME_not_path (e : JsObject) : "HOME" <> pathVariableName h e.
Proof.
  intros E. pose proof (pathVariableName_lower h e) as H.
  rewrite <- E in H. discriminate H.
Qed.

(** X13. On Windows, with USERPROFILE set, the environment of the options
    that [execOpts] returns has HOME equal to USERPROFILE, whatever HOME
    was in [process.env]; the working directory is the workspace root and
    the options ask for asynchronous execution. *)
Theorem execOpts_windows_home (rootPath : option string) (st : State)
    (w : World) (userprofile : string) :
  isWindows (process_platform h) = true ->
  obj_get (process_env st) "USERPROFILE" = Some userprofile ->
  exists out,
    execOpts h rootPath st w = Some out
    /\ forall opts,
         completion out = Returned opts ->
         obj_get (deref (state_after out) (env opts)) "HOME"
         = Some userprofile
         /\ cwd opts = rootPath
         /\ async opts = true.
Proof.
  intros Hwin Huser. unfold execOpts, home. rewrite Hwin, Huser.
  cbn [alloc deref]. eexists. split; [reflexivity|].
  set (prepared := obj_assign (obj_assign [] (process_env st))
                     [("HOME", userprofile)]).
  set (st0 := mkState (process_env st) (heap st ++ [prepared]) (console st)
                (executed st)).
  intros opts.
  destruct (completion (shellEnvironment h (Obj (List.length (heap st))) st0
                          w)) as [e|err] eqn:Hret; [|discriminate].
  cbn [completion state_after]. intros E. injection E as <-.
  cbn [env cwd async]. split; [|auto].
  assert (Hprepared : deref st0 (Obj (List.length (heap st))) = prepared)
    by (apply deref_last; reflexivity).
  assert (Hwf : wf_object (deref st0 (Obj (List.length (heap st))))).
  { rewrite Hprepared. unfold prepared.
    apply obj_assign_keeps_wf, obj_assign_keeps_wf. constructor. }
  destruct (shellEnvironment_returned h _ _ _ _ Hwf Hret)
    as (_ & o' & -> & Hother).
  assert (Hhome : obj_get o' "HOME" = Some userprofile).
  { rewrite Hother by (apply HOME_not_path || discriminate).
    rewrite Hprepared. unfold prepared.
    change (obj_assign (obj_assign [] (process_env st))
              [("HOME", userprofile)])
      with (obj_put (obj_assign [] (process_env st)) "HOME" userprofile).
    rewrite obj_put_other by discriminate. apply obj_get_set_same. }
  destruct (truthy _); [|assumption].
  rewrite obj_get_set_other by discriminate. assumption.
Qed.

(** X14. Off Windows [execOpts] hands [process.env] itself to
    [shellEnvironment]: the environment of the options it returns is the new
    object, not [process.env], and apart from PATH, KUBECONFIG and
    [__proto__] (a name the copy of line 121 leaves out) it holds
    the variables [process.env] had when the call began, so a variable that
    auto-detection sets during the call is not in it. *)
Theorem execOpts_environment_snapshot (rootPath : option string)
    (st : State) (w : World) :
  isWindows (process_platform h) = false ->
  wf_object (process_env st) ->
  exists out,
    execOpts h rootPath st w = Some out
    /\ forall opts,
         completion out = Returned opts ->
         env opts = Obj (List.length (heap st))
         /\ cwd opts = rootPath
         /\ async opts = true
         /\ forall k,
              k <> "PATH" -> k <> "KUBECONFIG" -> k <> "__proto__" ->
              obj_get (deref (state_after out) (env opts)) k
              = obj_get (process_env st) k.
Proof.
  intros Hwin Hwf. unfold execOpts. rewrite Hwin.
  eexists. split; [reflexivity|]. intros opts.
  destruct (completion (shellEnvironment h ProcessEnv st w)) as [e|err]
    eqn:Hret; [|discriminate].
  cbn [completion state_after]. intros E. injection E as <-.
  cbn [env cwd async].
  destruct (shellEnvironment_returned h ProcessEnv st w e Hwf Hret)
    as (-> & o' & Hderef & Hother).
  repeat split. intros k Hpath Hkube Hproto. rewrite Hderef.
  assert (Hk : obj_get o' k = obj_get (process_env st) k).
  { apply Hother; [|assumption]. unfold pathVariableName. now rewrite Hwin. }
  destruct (truthy _); [|assumption].
  rewrite obj_get_set_other by assumption. assumption.
Qed.

End CallersMore.

Lemma pathVariableName_first_match_witness :
  exists before after,
    obj_keys windows_env
    = (before
         ++ pathVariableName (example_host "win32" [] []) windows_env
         :: after)%list
    /\ toLowerCase (pathVariableName (example_host "win32" [] []) windows_env)
       = "path"
    /\ forall x, In x before -> toLowerCase x <> "path".
Proof.
  apply (proj2 (proj2 (pathVariableName_first_match
                         (example_host "win32" [] []) windows_env))
           eq_refl "Path").
  - left. reflexivity.
  - reflexivity.
Defined.

Ltac distinct_names :=
  unfold wf_object; repeat constructor; simpl; intuition discriminate.

Lemma shellEnvironment_keeps_other_variables_witness :
  let host := example_host "linux" tool_settings
                [("minishift", helper_success)] in
  let st := state_with_env [("PATH", "/usr/bin"); ("LANG", "C")] in
  let out := shellEnvironment host ProcessEnv st tt in
  obj_get (deref (state_after out) (Obj 0)) "DOCKER_HOST" = None
  /\ obj_get (process_env (state_after out)) "DOCKER_HOST"
     = Some "tcp://1.2.3.4:2376".
Proof.
  split; [|reflexivity].
  apply (shellEnvironment_keeps_other_variables
           (example_host "linux" tool_settings
              [("minishift", helper_success)])
           ProcessEnv (state_with_env [("PATH", "/usr/bin"); ("LANG", "C")])
           tt (Obj 0) "DOCKER_HOST").
  - distinct_names.
  - reflexivity.
  - intros E. vm_compute in E. discriminate E.
  - discriminate.
  - discriminate.
Defined.

Lemma shellEnvironment_sets_KUBECONFIG_witness :
  let host := example_host "win32" windows_tool_settings [] in
  let out := shellEnvironment host ProcessEnv (state_with_env windows_env) tt
  in
  obj_get (deref (state_after out) (Obj 0)) "KUBECONFIG"
  = Some "C:\kube\config".
Proof.
  apply (proj1 (shellEnvironment_sets_KUBECONFIG
                  (example_host "win32" windows_tool_settings [])
                  ProcessEnv (state_with_env windows_env) tt (Obj 0)
                  ltac:(distinct_names) eq_refl)).
  - reflexivity.
  - discriminate.
Defined.

Lemma shellEnvironment_without_tools_witness :
  let host := example_host "linux" [] [("minikube", helper_success)] in
  let out := shellEnvironment host ProcessEnv empty_state tt in
  completion out = Returned (Obj 0)
  /\ process_env (state_after out) = []
  /\ executed (state_after out) = []
  /\ console (state_after out) = []
  /\ world_after out = tt.
Proof.
  apply (shellEnvironment_without_tools
           (example_host "linux" [] [("minikube", helper_success)])
           ProcessEnv empty_state tt).
  intros tool Htool. reflexivity.
Defined.

Lemma execOpts_windows_home_witness :
  let host := example_host "win32" windows_tool_settings [] in
  exists out,
    execOpts host (Some "C:\work") (state_with_env windows_env) tt = Some out
    /\ forall opts,
         completion out = Returned opts ->
         obj_get (deref (state_after out) (env opts)) "HOME"
         = Some "C:\Users\me"
         /\ cwd opts = Some "C:\work"
         /\ async opts = true.
Proof.
  apply (execOpts_windows_home
           (example_host "win32" windows_tool_settings [])
           (Some "C:\work") (state_with_env windows_env) tt "C:\Users\me");
    reflexivity.
Defined.

Lemma execOpts_environment_snapshot_witness :
  let host := example_host "linux" tool_settings
                [("minishift", helper_success)] in
  let st := state_with_env [("PATH", "/usr/bin")] in
  exists out,
    execOpts host None st tt = Some out
    /\ forall opts,
         completion out = Returned opts ->
         env opts = Obj 0
         /\ cwd opts = None
         /\ async opts = true
         /\ forall k,
              k <> "PATH" -> k <> "KUBECONFIG" -> k <> "__proto__" ->
              obj_get (deref (state_after out) (env opts)) k
              = obj_get [("PATH", "/usr/bin")] k.
Proof.
  apply (execOpts_environment_snapshot
           (example_host "linux" tool_settings
              [("minishift", helper_success)])
           None (state_with_env [("PATH", "/usr/bin")]) tt).
  - reflexivity.
  - distinct_names.
Defined.

Section ShellEnvironmentDocker.

Context {World : Type} (h : Host World).

(** With docker configured in [process.env] every round of the loop skips
    auto-detection. *)
Lemma forTools_docker_configured (n : nat) (pv : string) (ts : list string) :
  forall (st : State) (w : World),
    truthy (obj_get (process_env st) "DOCKER_HOST") = true
    \/ truthy (obj_get (process_env st) "DOCKER_CERT_PATH") = true ->
    completion (forTools h (Obj n) pv ts st w) = Returned tt
    /\ process_env (state_after (forTools h (Obj n) pv ts st w))
       = process_env st
    /\ executed (state_after (forTools h (Obj n) pv ts st w)) = executed st
    /\ console (state_after (forTools h (Obj n) pv ts st w)) = console st
    /\ world_after (forTools h (Obj n) pv ts st w) = w.
Proof.
  induction ts as [|tool rest IH]; intros st w Hset; cbn [forTools].
  - cbn. auto.
  - unfold toolStep. destruct (truthy (configuration h _)).
    + rewrite (autoDockerEnvConfig_configured h (Obj n) st w Hset).
      cbn [completion state_after world_after].
      match goal with
      | |- context [forTools h (Obj n) pv rest ?st' w] =>
          destruct (IH st' w Hset) as (H1 & H2 & H3 & H4 & H5)
      end.
      rewrite H1, H2, H3, H4, H5. cbn. auto.
    + cbn [completion state_after world_after]. now apply IH.
Qed.

(** X15. With [DOCKER_HOST] or [DOCKER_CERT_PATH] set to a non-empty value
    in [process.env], [shellEnvironment] always returns its new object: no
    helper is looked up or run for any configured tool, nothing is thrown,
    and [process.env], the console and the world stay as they were. *)
Theorem shellEnvironment_with_docker_configured (baseEnvironment : Ref)
    (st : State) (w : World) (v : string) :
  v <> "" ->
  obj_get (process_env st) "DOCKER_HOST" = Some v
  \/ obj_get (process_env st) "DOCKER_CERT_PATH" = Some v ->
  let out := shellEnvironment h baseEnvironment st w in
  completion out = Returned (Obj (List.length (heap st)))
  /\ process_env (state_after out) = process_env st
  /\ executed (state_after out) = executed st
  /\ console (state_after out) = console st
  /\ world_after out = w.
Proof.
  intros Hv Hset. cbv zeta. unfold shellEnvironment, alloc.
  apply truthy_string_nonempty in Hv.
  match goal with
  | |- context [forTools h ?e ?pv tools ?st' w] =>
      destruct (forTools_docker_configured (List.length (heap st)) pv tools
                  st' w) as (H1 & H2 & H3 & H4 & H5)
  end.
  { cbn [process_env]. destruct Hset as [-> | ->]; cbn; auto. }
  rewrite H1. cbn [completion state_after world_after].
  destruct (truthy (configuration h _)); cbn; rewrite ?H2, ?H3, ?H4, ?H5;
    auto.
Qed.

End ShellEnvironmentDocker.

Lemma shellEnvironment_with_docker_configured_witness :
  let host := example_host "linux" tool_settings
                [("minikube", helper_success)] in
  let out := shellEnvironment host (Obj 0) state_with_caller_env tt in
  completion out = Returned (Obj 1)
  /\ process_env (state_after out) = [("DOCKER_HOST", "tcp://9.9.9.9:2376")]
  /\ executed (state_after out) = []
  /\ console (state_after out) = []
  /\ world_after out = tt.
Proof.
  apply (shellEnvironment_with_docker_configured
           (example_host "linux" tool_settings
              [("minikube", helper_success)])
           (Obj 0) state_with_caller_env tt "tcp://9.9.9.9:2376").
  - discriminate.
  - left. reflexivity.
Defined.
